(** * Magnum::Math::Matrix3 -- 3x3 matrices for 2D transformations

    A shallow embedding of [src/Math/Matrix3.h].  The class is a template
    over the scalar type [T]; the embedding is generic over a scalar
    interface ([Scalar]) that lists exactly the operations the header
    applies to [T].  Structural facts are proved for every scalar type;
    algebraic facts are proved for scalar types whose arithmetic obeys the
    commutative-ring laws ([ExactScalar]), instantiated below at the
    integers ([Matrix3<int>]) and at the real numbers.  Where rounding
    matters the code is run at IEEE binary64 ([Matrix3<double>]). *)

From Stdlib Require Import PrimFloat.
From Stdlib Require Import ZArith Bool String Ring Lia.
From Stdlib Require Import Reals Lra.

Set Implicit Arguments.

(** ** The scalar type [T] *)

(** What the header asks of [T]: the literals [T(0)], [T(1)], [T(2)]
    (and [2.0f] converted to [T]), the arithmetic operators, the built-in
    comparison [==] and the fuzzy comparison [MathTypeTraits<T>::equals]. *)
Class Scalar (T : Type) : Type := {
  zero : T;
  one : T;
  two : T;
  add : T -> T -> T;
  sub : T -> T -> T;
  mul : T -> T -> T;
  div : T -> T -> T;
  opp : T -> T;
  eqb : T -> T -> bool;
  equals : T -> T -> bool
}.

(** [std::sin] and [std::cos], with the result converted back to [T]. *)
Class Trig (T : Type) : Type := {
  std_sin : T -> T;
  std_cos : T -> T
}.

(** Scalar types whose built-in [==] decides equality. *)
Class EqScalar (T : Type) {S : Scalar T} : Prop := {
  eqb_eq : forall a b : T, eqb a b = true <-> a = b
}.

Arguments EqScalar T {S}.

(** Scalar types with exact arithmetic: the operators form a commutative
    ring, [==] decides equality and the fuzzy comparison accepts equal
    values. *)
Class ExactScalar (T : Type) {S : Scalar T} : Prop := {
  exact_eq : EqScalar T;
  scalar_ring : ring_theory zero one add mul sub opp (@eq T);
  two_def : two = add one one;
  equals_refl : forall a : T, equals a a = true
}.

Arguments ExactScalar T {S}.

(** ** Contract checks *)

(** The three [CORRADE_ASSERT]s of the header. *)
Inductive Assertion : Type :=
| NormalNotNormalized
| UnexpectedLastRow
| NotEuclideanTransformation.

Definition message (a : Assertion) : string :=
  match a with
  | NormalNotNormalized =>
      "Math::Matrix3::reflection(): normal must be normalized"
  | UnexpectedLastRow =>
      "Math::Matrix3::invertedEuclidean(): unexpected values on last row"
  | NotEuclideanTransformation =>
      "Math::Matrix3::invertedEuclidean(): the matrix doesn't represent Euclidean transformation"
  end.

(** The two failure kinds the specification names. *)
Inductive FailureKind : Type := InvalidNormal | NotEuclidean.

Definition kind (a : Assertion) : FailureKind :=
  match a with
  | NormalNotNormalized => InvalidNormal
  | UnexpectedLastRow => NotEuclidean
  | NotEuclideanTransformation => NotEuclidean
  end.

(** Modelled from the spec: the macro [CORRADE_ASSERT(cond, msg, ret)] is
    not defined in the header; the specification describes it as a fatal
    contract check, so a call either returns a value or stops at the first
    assertion whose condition is false.  This is the behaviour of builds in
    which assertions are active. *)
Inductive Outcome (A : Type) : Type :=
| Returned (a : A)
| Failed (a : Assertion).

Arguments Returned {A} a.
Arguments Failed {A} a.

Definition CORRADE_ASSERT {A : Type} (cond : bool) (a : Assertion)
    (k : Outcome A) : Outcome A :=
  if cond then k else Failed a.

Definition signals {A : Type} (o : Outcome A) (f : FailureKind) : Prop :=
  exists a, o = Failed a /\ kind a = f.

Definition returns {A : Type} (o : Outcome A) : Prop :=
  exists v, o = Returned v.

(** ** Vectors and matrices *)

Section Types.

Variable T : Type.

Record Vector2 : Type := mkVector2 { x2 : T; y2 : T }.

Record Vector3 : Type := mkVector3 { x3 : T; y3 : T; z3 : T }.

(** [Matrix<2, T>]: two columns. *)
Record Matrix2 : Type := mkMatrix2 { m2col0 : Vector2; m2col1 : Vector2 }.

(** [Matrix3<T>]: three columns; indexing the matrix with [i] gives
    column [i]. *)
Record Matrix3 : Type :=
  mkMatrix3 { col0 : Vector3; col1 : Vector3; col2 : Vector3 }.

End Types.

Arguments mkVector2 {T} _ _.
Arguments mkVector3 {T} _ _ _.
Arguments mkMatrix2 {T} _ _.
Arguments mkMatrix3 {T} _ _ _.

Section Matrix3.

Context {T : Type} {S : Scalar T}.

(** *** Pieces of Vector.h, Point2D.h, RectangularMatrix.h and Matrix.h *)

(** [Vector3::xy()]. *)
Definition xy (v : Vector3 T) : Vector2 T := mkVector2 (x3 v) (y3 v).

(** [Vector3(const Vector2&, T)]. *)
Definition Vector3_of (v : Vector2 T) (z : T) : Vector3 T :=
  mkVector3 (x2 v) (y2 v) z.

(** Modelled from the spec: [Point2D(x, y)] of Point2D.h, a point "implicitly
    homogeneous with w=1". *)
Definition Point2D (x y : T) : Vector3 T := mkVector3 x y one.

(** The nine-scalar constructor, column-major. *)
Definition Matrix3_of (a0 a1 a2 b0 b1 b2 c0 c1 c2 : T) : Matrix3 T :=
  mkMatrix3 (mkVector3 a0 a1 a2) (mkVector3 b0 b1 b2) (mkVector3 c0 c1 c2).

(** [Matrix3(IdentityType = Identity, T value = T(1))]. *)
Definition Matrix3_identity_of (value : T) : Matrix3 T :=
  Matrix3_of value zero zero
             zero value zero
             zero zero value.

Definition Matrix3_identity : Matrix3 T := Matrix3_identity_of one.

(** Modelled from the spec: [Matrix<2, T>()] of Matrix.h, the default
    (identity) 2x2 matrix. *)
Definition Matrix2_identity : Matrix2 T :=
  mkMatrix2 (mkVector2 one zero) (mkVector2 zero one).

(** [from(Vector3, Vector3, Vector3)] and [Matrix<2, T>::from]: a matrix
    from its column vectors. *)
Definition from_columns (a b c : Vector3 T) : Matrix3 T := mkMatrix3 a b c.

Definition Matrix2_from (a b : Vector2 T) : Matrix2 T := mkMatrix2 a b.

(** [operator()(col, row)] for the three elements the header reads. *)
Definition at02 (m : Matrix3 T) : T := z3 (col0 m).
Definition at12 (m : Matrix3 T) : T := z3 (col1 m).
Definition at22 (m : Matrix3 T) : T := z3 (col2 m).

(** The rows of a matrix, read across the columns. *)
Definition row0 (m : Matrix3 T) : Vector3 T :=
  mkVector3 (x3 (col0 m)) (x3 (col1 m)) (x3 (col2 m)).
Definition row1 (m : Matrix3 T) : Vector3 T :=
  mkVector3 (y3 (col0 m)) (y3 (col1 m)) (y3 (col2 m)).
Definition row2 (m : Matrix3 T) : Vector3 T :=
  mkVector3 (at02 m) (at12 m) (at22 m).

(** Modelled from the spec: [Vector2::dot()] of Vector.h, the dot product of
    a vector with itself. *)
Definition dot (v : Vector2 T) : T :=
  add (mul (x2 v) (x2 v)) (mul (y2 v) (y2 v)).

(** Modelled from the spec: unary minus, scalar multiple and the quotient
    [number/vector] of Vector.h, all componentwise. *)
Definition Vector2_opp (v : Vector2 T) : Vector2 T :=
  mkVector2 (opp (x2 v)) (opp (y2 v)).

Definition Vector2_scale (k : T) (v : Vector2 T) : Vector2 T :=
  mkVector2 (mul k (x2 v)) (mul k (y2 v)).

Definition Vector2_rdiv (k : T) (v : Vector2 T) : Vector2 T :=
  mkVector2 (div k (x2 v)) (div k (y2 v)).

(** Modelled from the spec: [column * row.transposed()] of
    RectangularMatrix.h, the 2x2 matrix whose element in column [c] and
    row [r] is [column[r] * row[c]]. *)
Definition outer (u v : Vector2 T) : Matrix2 T :=
  mkMatrix2 (mkVector2 (mul (x2 u) (x2 v)) (mul (y2 u) (x2 v)))
            (mkVector2 (mul (x2 u) (y2 v)) (mul (y2 u) (y2 v))).

(** Modelled from the spec: the generic matrix arithmetic of
    RectangularMatrix.h and Matrix.h, which the specification treats as a
    correct external dependency: difference, transpose, matrix-vector and
    matrix-matrix products in column-major layout. *)
Definition Vector2_sub (u v : Vector2 T) : Vector2 T :=
  mkVector2 (sub (x2 u) (x2 v)) (sub (y2 u) (y2 v)).

Definition Matrix2_sub (a b : Matrix2 T) : Matrix2 T :=
  mkMatrix2 (Vector2_sub (m2col0 a) (m2col0 b))
            (Vector2_sub (m2col1 a) (m2col1 b)).

Definition transposed (a : Matrix2 T) : Matrix2 T :=
  mkMatrix2 (mkVector2 (x2 (m2col0 a)) (x2 (m2col1 a)))
            (mkVector2 (y2 (m2col0 a)) (y2 (m2col1 a))).

Definition Matrix2_mulv (a : Matrix2 T) (v : Vector2 T) : Vector2 T :=
  mkVector2
    (add (mul (x2 (m2col0 a)) (x2 v)) (mul (x2 (m2col1 a)) (y2 v)))
    (add (mul (y2 (m2col0 a)) (x2 v)) (mul (y2 (m2col1 a)) (y2 v))).

Definition Matrix2_mul (a b : Matrix2 T) : Matrix2 T :=
  mkMatrix2 (Matrix2_mulv a (m2col0 b)) (Matrix2_mulv a (m2col1 b)).

Definition Matrix3_mulv (a : Matrix3 T) (v : Vector3 T) : Vector3 T :=
  mkVector3
    (add (add (mul (x3 (col0 a)) (x3 v)) (mul (x3 (col1 a)) (y3 v)))
         (mul (x3 (col2 a)) (z3 v)))
    (add (add (mul (y3 (col0 a)) (x3 v)) (mul (y3 (col1 a)) (y3 v)))
         (mul (y3 (col2 a)) (z3 v)))
    (add (add (mul (z3 (col0 a)) (x3 v)) (mul (z3 (col1 a)) (y3 v)))
         (mul (z3 (col2 a)) (z3 v))).

Definition Matrix3_mul (a b : Matrix3 T) : Matrix3 T :=
  mkMatrix3 (Matrix3_mulv a (col0 b)) (Matrix3_mulv a (col1 b))
            (Matrix3_mulv a (col2 b)).

(** Modelled from the spec: [operator==] of [Matrix<2, T>] (Matrix.h).  The
    specification words the orthogonality check as an exact one
    ([Rt * R == I], "the exact inverse"), so the comparison is the
    componentwise built-in [==]. *)
Definition Vector2_eqb (u v : Vector2 T) : bool :=
  eqb (x2 u) (x2 v) && eqb (y2 u) (y2 v).

Definition Matrix2_eqb (a b : Matrix2 T) : bool :=
  Vector2_eqb (m2col0 a) (m2col0 b) && Vector2_eqb (m2col1 a) (m2col1 b).

(** Componentwise fuzzy comparison, for statements "within the epsilon
    policy". *)
Definition Vector3_equals (u v : Vector3 T) : bool :=
  equals (x3 u) (x3 v) && equals (y3 u) (y3 v) && equals (z3 u) (z3 v).

Definition Matrix3_equals (a b : Matrix3 T) : bool :=
  Vector3_equals (col0 a) (col0 b) && Vector3_equals (col1 a) (col1 b)
  && Vector3_equals (col2 a) (col2 b).

(** *** Matrix3.h *)

Definition translation (vector : Vector2 T) : Matrix3 T :=
  Matrix3_of one zero zero
             zero one zero
             (x2 vector) (y2 vector) one.

Definition scaling (vector : Vector2 T) : Matrix3 T :=
  Matrix3_of (x2 vector) zero zero
             zero (y2 vector) zero
             zero zero one.

Definition rotation {Tr : Trig T} (angle : T) : Matrix3 T :=
  let sine := std_sin angle in
  let cosine := std_cos angle in
  Matrix3_of cosine sine zero
             (opp sine) cosine zero
             zero zero one.

Definition from (rotationScaling : Matrix2 T) (translation : Vector2 T)
    : Matrix3 T :=
  from_columns (Vector3_of (m2col0 rotationScaling) zero)
               (Vector3_of (m2col1 rotationScaling) zero)
               (Vector3_of translation one).

(** The [{}] passed as translation: a zero-initialised vector. *)
Definition Vector2_zero : Vector2 T := mkVector2 zero zero.

Definition reflection (normal : Vector2 T) : Outcome (Matrix3 T) :=
  CORRADE_ASSERT (equals (dot normal) one) NormalNotNormalized
    (Returned
       (from (Matrix2_sub Matrix2_identity
                          (outer (Vector2_scale two normal) normal))
             Vector2_zero)).

Definition projection (size : Vector2 T) : Matrix3 T :=
  scaling (Vector2_rdiv two size).

Definition rotationScaling (m : Matrix3 T) : Matrix2 T :=
  Matrix2_from (xy (col0 m)) (xy (col1 m)).

Definition right (m : Matrix3 T) : Vector2 T := xy (col0 m).

Definition up (m : Matrix3 T) : Vector2 T := xy (col1 m).

(** The accessor [translation() const]; the factory of the same name is
    [translation] above. *)
Definition translation_of (m : Matrix3 T) : Vector2 T := xy (col2 m).

Definition last_row_check (m : Matrix3 T) : bool :=
  eqb (at02 m) zero && eqb (at12 m) zero && eqb (at22 m) one.

Definition orthogonal_check (m : Matrix3 T) : bool :=
  Matrix2_eqb (Matrix2_mul (transposed (rotationScaling m))
                           (rotationScaling m))
              Matrix2_identity.

Definition invertedEuclidean (m : Matrix3 T) : Outcome (Matrix3 T) :=
  CORRADE_ASSERT (last_row_check m) UnexpectedLastRow
    (let inverseRotation := transposed (rotationScaling m) in
     CORRADE_ASSERT
       (Matrix2_eqb (Matrix2_mul inverseRotation (rotationScaling m))
                    Matrix2_identity)
       NotEuclideanTransformation
       (Returned
          (from inverseRotation
                (Matrix2_mulv inverseRotation
                              (Vector2_opp (translation_of m)))))).

End Matrix3.

(** ** The rest of Matrix3.h *)

(** [std::sqrt], with the result converted back to [T]; used by
    [Vector2::length()]. *)
Class Sqrt (T : Type) : Type := {
  std_sqrt : T -> T
}.

Section Matrix3Rest.

Context {T : Type} {S : Scalar T}.

(** [Matrix3(ZeroType)]. *)
Definition Matrix3_zero : Matrix3 T :=
  Matrix3_of zero zero zero
             zero zero zero
             zero zero zero.

(** Modelled from the spec: the two-argument dot product, [length()] and
    [normalized()] of Vector.h ("each column normalized to unit length"):
    the vector divided componentwise by the square root of its dot product
    with itself. *)
Definition dot2 (u v : Vector2 T) : T :=
  add (mul (x2 u) (x2 v)) (mul (y2 u) (y2 v)).

Definition length {Sq : Sqrt T} (v : Vector2 T) : T := std_sqrt (dot v).

Definition normalized {Sq : Sqrt T} (v : Vector2 T) : Vector2 T :=
  mkVector2 (div (x2 v) (length v)) (div (y2 v) (length v)).

(** The accessor [rotation() const]; the factory of the same name is
    [rotation] above. *)
Definition rotation_of {Sq : Sqrt T} (m : Matrix3 T) : Matrix2 T :=
  Matrix2_from (normalized (xy (col0 m))) (normalized (xy (col1 m))).

(** The non-const [translation()] returns a reference to the first two
    elements of the third column.  A write through the reference replaces
    these two elements and leaves the third one; the matrix after the
    write is returned. *)
Definition assign_xy (column : Vector3 T) (v : Vector2 T) : Vector3 T :=
  mkVector3 (x2 v) (y2 v) (z3 column).

Definition assign_translation (m : Matrix3 T) (v : Vector2 T) : Matrix3 T :=
  mkMatrix3 (col0 m) (col1 m) (assign_xy (col2 m) v).

(** [operator*(const Point2D<T>&)]: the product of the base class with the
    point as a three-component vector. *)
Definition mul_point (m : Matrix3 T) (other : Vector3 T) : Vector3 T :=
  Matrix3_mulv m other.

(** Componentwise product of two vectors, used to state results. *)
Definition Vector2_mul (u v : Vector2 T) : Vector2 T :=
  mkVector2 (mul (x2 u) (x2 v)) (mul (y2 u) (y2 v)).

End Matrix3Rest.

(** ** Two scalar types *)

(** The integers: [int] as long as no operation overflows, with truncating
    division (a quotient by zero, undefined in C++, has the value 0) and a
    fuzzy comparison that is the exact one. *)
Definition Z_Scalar : Scalar Z :=
  {| zero := 0%Z; one := 1%Z; two := 2%Z;
     add := Z.add; sub := Z.sub; mul := Z.mul; div := Z.quot; opp := Z.opp;
     eqb := Z.eqb; equals := Z.eqb |}.

(** The real numbers, as the ideal that [float] and [double] approximate.
    The fuzzy comparison accepts two numbers closer than [eps]. *)
Definition R_eqb (a b : R) : bool :=
  if Req_dec_T a b then true else false.

Definition R_equals (eps : posreal) (a b : R) : bool :=
  if Rlt_dec (Rabs (a - b)) eps then true else false.

Definition R_Scalar (eps : posreal) : Scalar R :=
  {| zero := 0%R; one := 1%R; two := 2%R;
     add := Rplus; sub := Rminus; mul := Rmult; div := Rdiv; opp := Ropp;
     eqb := R_eqb; equals := R_equals eps |}.

Definition R_Trig : Trig R := {| std_sin := sin; std_cos := cos |}.

Definition R_Sqrt : Sqrt R := {| std_sqrt := sqrt |}.

(** A tolerance for sample inputs. *)
Definition unit_tolerance : posreal := mkposreal 1 Rlt_0_1.

(** The tolerance [1e-5] and a normal whose dot product with itself,
    [1.000005...], is within that tolerance of [1]. *)
Definition small_tolerance : posreal :=
  mkposreal (/ 100000) (Rinv_0_lt_compat 100000 (IZR_lt 0 100000 eq_refl)).

Definition near_unit_normal : Vector2 R :=
  mkVector2 (400001 / 400000)%R 0%R.

(** [double]: IEEE binary64 arithmetic, rounding to nearest, with the
    built-in [==].  Modelled from the spec: [MathTypeTraits<T>::equals] for
    a floating type, the "epsilon-equality policy": two numbers are equal
    when they differ by less than the tolerance [eps]. *)
Definition F_equals (eps a b : float) : bool :=
  PrimFloat.ltb (PrimFloat.abs (PrimFloat.sub a b)) eps.

Definition F_Scalar (eps : float) : Scalar float :=
  {| zero := 0%float; one := 1%float; two := 2%float;
     add := PrimFloat.add; sub := PrimFloat.sub; mul := PrimFloat.mul;
     div := PrimFloat.div; opp := PrimFloat.opp;
     eqb := PrimFloat.eqb; equals := F_equals eps |}.

(** The tolerance [1e-5] as a [double]. *)
Definition coarse_tolerance : float := (1 / 100000)%float.

(** The rotation block with cosine [0.6] and sine [0.8] (each the nearest
    [double]) and a translation far from the origin. *)
Definition rigid_block : Matrix2 float :=
  mkMatrix2 (mkVector2 (6 / 10)%float (8 / 10)%float)
            (mkVector2 (- (8 / 10))%float (6 / 10)%float).

Definition far_translation : Vector2 float :=
  mkVector2 1234567890123457%float 6543219876543211%float.

Definition far_transformation : Matrix3 float :=
  from (S := F_Scalar coarse_tolerance) rigid_block far_translation.

(** A 2x2 block is orthogonal when its transpose is a left inverse. *)
Definition orthogonal {T : Type} {S : Scalar T} (r : Matrix2 T) : Prop :=
  Matrix2_mul (transposed r) r = Matrix2_identity.

(** Sums and scalar multiples, used to state results. *)
Definition Vector2_add {T : Type} {S : Scalar T} (u v : Vector2 T)
    : Vector2 T :=
  mkVector2 (add (x2 u) (x2 v)) (add (y2 u) (y2 v)).

Definition Matrix2_add {T : Type} {S : Scalar T} (a b : Matrix2 T)
    : Matrix2 T :=
  mkMatrix2
    (mkVector2 (add (x2 (m2col0 a)) (x2 (m2col0 b)))
               (add (y2 (m2col0 a)) (y2 (m2col0 b))))
    (mkVector2 (add (x2 (m2col1 a)) (x2 (m2col1 b)))
               (add (y2 (m2col1 a)) (y2 (m2col1 b)))).

Definition Matrix2_scale {T : Type} {S : Scalar T} (k : T) (a : Matrix2 T)
    : Matrix2 T :=
  mkMatrix2 (Vector2_scale k (m2col0 a)) (Vector2_scale k (m2col1 a)).

(** ** Sample integer data *)

(** The quarter turn [(x, y) |-> (-y, x)] followed by the shift by
    [(3, 4)], as a [Matrix3<int>]. *)
Definition quarter_turn : Matrix2 Z :=
  mkMatrix2 (mkVector2 0%Z 1%Z) (mkVector2 (-1)%Z 0%Z).

Definition turn_and_shift : Matrix3 Z :=
  from (S := Z_Scalar) quarter_turn (mkVector2 3%Z 4%Z).

(** The normal of the x axis. *)
Definition y_axis : Vector2 Z := mkVector2 0%Z 1%Z.

(** ** Laws of the two scalar types *)

Lemma Z_EqScalar : @EqScalar Z Z_Scalar.
Proof. constructor. intros a b. apply Z.eqb_eq. Qed.

Lemma Z_ExactScalar : @ExactScalar Z Z_Scalar.
Proof.
  constructor.
  - exact Z_EqScalar.
  - exact Zth.
  - reflexivity.
  - intros a. apply Z.eqb_refl.
Qed.

Lemma R_eqb_eq (a b : R) : R_eqb a b = true <-> a = b.
Proof.
  unfold R_eqb. destruct (Req_dec_T a b) as [e | n]; split; intros H.
  - exact e.
  - reflexivity.
  - discriminate H.
  - contradiction.
Qed.

Lemma R_equals_refl (eps : posreal) (a : R) : R_equals eps a a = true.
Proof.
  unfold R_equals. destruct (Rlt_dec (Rabs (a - a)) eps) as [l | n].
  - reflexivity.
  - exfalso. apply n. replace (a - a)%R with 0%R by ring.
    rewrite Rabs_R0. apply cond_pos.
Qed.

Lemma R_EqScalar (eps : posreal) : @EqScalar R (R_Scalar eps).
Proof. constructor. exact R_eqb_eq. Qed.

Lemma R_ExactScalar (eps : posreal) : @ExactScalar R (R_Scalar eps).
Proof.
  constructor.
  - apply R_EqScalar.
  - exact RTheory.
  - reflexivity.
  - apply R_equals_refl.
Qed.

(** ** Facts that hold for every scalar type *)

Section AnyScalar.

Context {T : Type} {S : Scalar T}.

Lemma CORRADE_ASSERT_true (A : Type) (c : bool) (a : Assertion)
    (k : Outcome A) :
  c = true -> CORRADE_ASSERT c a k = k.
Proof. intros ->. reflexivity. Qed.

Lemma CORRADE_ASSERT_false (A : Type) (c : bool) (a : Assertion)
    (k : Outcome A) :
  c = false -> CORRADE_ASSERT c a k = Failed a.
Proof. intros ->. reflexivity. Qed.

Lemma returns_not_signals (A : Type) (o : Outcome A) (f : FailureKind) :
  returns o -> ~ signals o f.
Proof. intros [v ->] [a [H _]]. discriminate H. Qed.

Lemma reflection_returned (n : Vector2 T) :
  equals (dot n) one = true ->
  reflection n =
  Returned (from (Matrix2_sub Matrix2_identity
                              (outer (Vector2_scale two n) n))
                 Vector2_zero).
Proof. intros H. unfold reflection. rewrite H. reflexivity. Qed.

Lemma reflection_failed (n : Vector2 T) :
  equals (dot n) one = false -> reflection n = Failed NormalNotNormalized.
Proof. intros H. unfold reflection. rewrite H. reflexivity. Qed.

(** C4.  [reflection(n)] signals [InvalidNormal] exactly when the fuzzy
    comparison [MathTypeTraits<T>::equals(dot(n, n), T(1))] is false; when
    the comparison is true the call returns a matrix and signals nothing. *)
Theorem reflection_signals_iff (n : Vector2 T) :
  (signals (reflection n) InvalidNormal <-> equals (dot n) one = false)
  /\ (equals (dot n) one = true ->
      returns (reflection n)
      /\ forall f, ~ signals (reflection n) f).
Proof.
  split; [split |].
  - intros [a [Hf _]]. destruct (equals (dot n) one) eqn:Hc.
    + rewrite (reflection_returned n Hc) in Hf. discriminate Hf.
    + reflexivity.
  - intros Hc. exists NormalNotNormalized. split.
    + apply reflection_failed. exact Hc.
    + reflexivity.
  - intros Hc.
    assert (Hr : returns (reflection n)).
    { eexists. apply reflection_returned. exact Hc. }
    split; [exact Hr |].
    intros f. apply returns_not_signals. exact Hr.
Qed.

Lemma rotationScaling_from (r : Matrix2 T) (t : Vector2 T) :
  rotationScaling (from r t) = r.
Proof. destruct r as [[a b] [c d]]. reflexivity. Qed.

Lemma translation_of_from (r : Matrix2 T) (t : Vector2 T) :
  translation_of (from r t) = t.
Proof. destruct t as [tx ty]. reflexivity. Qed.

(** C8.  Construction followed by decomposition gives the parts back:
    [translation(v).translation() == v], the rotation/scaling block of
    [translation(v)] is the 2x2 identity, and [from(R, t)] has
    rotation/scaling block [R] and translation [t]. *)
Theorem construction_roundtrip :
  (forall v : Vector2 T,
      translation_of (translation v) = v
      /\ rotationScaling (translation v) = Matrix2_identity)
  /\ (forall (r : Matrix2 T) (t : Vector2 T),
      rotationScaling (from r t) = r /\ translation_of (from r t) = t).
Proof.
  split.
  - intros [vx vy]. split; reflexivity.
  - intros r t. split.
    + apply rotationScaling_from.
    + apply translation_of_from.
Qed.

(** C10.  [projection] contains no contract check: for every size vector,
    a zero component included, it is the plain value
    [scaling(2/size)], whose two divisions are carried out whatever the
    divisor is; with the size [(0, 0)] both diagonal entries are [2/0]. *)
Theorem projection_unguarded :
  (forall s : Vector2 T,
      returns (Returned (projection s))
      /\ projection s =
         Matrix3_of (div two (x2 s)) zero zero
                    zero (div two (y2 s)) zero
                    zero zero one)
  /\ projection (mkVector2 zero zero) =
     Matrix3_of (div two zero) zero zero
                zero (div two zero) zero
                zero zero one.
Proof.
  split.
  - intros s. split.
    + exists (projection s). reflexivity.
    + reflexivity.
  - reflexivity.
Qed.

End AnyScalar.

(** ** Facts that need [==] to decide equality *)

Section WithEq.

Context {T : Type} {S : Scalar T} {E : EqScalar T}.

Lemma eqb_same (a : T) : eqb a a = true.
Proof. apply eqb_eq. reflexivity. Qed.

Lemma eqb_neq (a b : T) : eqb a b = false <-> a <> b.
Proof.
  split.
  - intros H e. apply eqb_eq in e. rewrite e in H. discriminate H.
  - intros H. destruct (eqb a b) eqn:Hab; [| reflexivity].
    apply eqb_eq in Hab. contradiction.
Qed.

Lemma Vector2_eqb_eq (u v : Vector2 T) : Vector2_eqb u v = true <-> u = v.
Proof.
  destruct u as [ux uy], v as [vx vy]. unfold Vector2_eqb. simpl.
  rewrite andb_true_iff, !eqb_eq. split.
  - intros [-> ->]. reflexivity.
  - intros H. injection H as -> ->. split; reflexivity.
Qed.

Lemma Matrix2_eqb_eq (a b : Matrix2 T) : Matrix2_eqb a b = true <-> a = b.
Proof.
  destruct a as [a0 a1], b as [b0 b1]. unfold Matrix2_eqb. simpl.
  rewrite andb_true_iff, !Vector2_eqb_eq. split.
  - intros [-> ->]. reflexivity.
  - intros H. injection H as -> ->. split; reflexivity.
Qed.

Lemma last_row_check_spec (m : Matrix3 T) :
  last_row_check m = true <-> row2 m = mkVector3 zero zero one.
Proof.
  unfold last_row_check, row2.
  rewrite !andb_true_iff, !eqb_eq. split.
  - intros [[-> ->] ->]. reflexivity.
  - intros H. injection H as -> -> ->. repeat split.
Qed.

Lemma orthogonal_check_spec (m : Matrix3 T) :
  orthogonal_check m = true <-> orthogonal (rotationScaling m).
Proof. unfold orthogonal_check, orthogonal. apply Matrix2_eqb_eq. Qed.

Lemma invertedEuclidean_checks (m : Matrix3 T) :
  invertedEuclidean m =
  if last_row_check m then
    if orthogonal_check m then
      Returned (from (transposed (rotationScaling m))
                     (Matrix2_mulv (transposed (rotationScaling m))
                                   (Vector2_opp (translation_of m))))
    else Failed NotEuclideanTransformation
  else Failed UnexpectedLastRow.
Proof. reflexivity. Qed.

(** C1.  When the last row of [M] is [(0, 0, 1)] and the rotation/scaling
    block of [M] is orthogonal, [M.invertedEuclidean()] returns
    [from(Rinv, Rinv * (-M.translation()))] with [Rinv] the transpose of
    [M.rotationScaling()]: written out, nine scalars obtained from the
    elements of [M] by products, sums and negation only. *)
Theorem invertedEuclidean_transpose_negate (m : Matrix3 T) :
  row2 m = mkVector3 zero zero one ->
  orthogonal (rotationScaling m) ->
  let Rinv := transposed (rotationScaling m) in
  invertedEuclidean m =
    Returned (from Rinv (Matrix2_mulv Rinv (Vector2_opp (translation_of m))))
  /\ from Rinv (Matrix2_mulv Rinv (Vector2_opp (translation_of m))) =
     Matrix3_of
       (x3 (col0 m)) (x3 (col1 m)) zero
       (y3 (col0 m)) (y3 (col1 m)) zero
       (add (mul (x3 (col0 m)) (opp (x3 (col2 m))))
            (mul (y3 (col0 m)) (opp (y3 (col2 m)))))
       (add (mul (x3 (col1 m)) (opp (x3 (col2 m))))
            (mul (y3 (col1 m)) (opp (y3 (col2 m)))))
       one.
Proof.
  intros Hrow Horth Rinv. split.
  - rewrite invertedEuclidean_checks.
    apply last_row_check_spec in Hrow. apply orthogonal_check_spec in Horth.
    rewrite Hrow, Horth. reflexivity.
  - reflexivity.
Qed.

(** C3.  [invertedEuclidean()] signals [NotEuclidean] exactly when the last
    row is not [(0, 0, 1)] or the transposed rotation/scaling block times
    the block differs from the identity (compared exactly); in that case
    nothing is returned, and in every other case a matrix is returned and
    no failure is signalled. *)
Theorem invertedEuclidean_signals_iff (m : Matrix3 T) :
  (signals (invertedEuclidean m) NotEuclidean <->
     row2 m <> mkVector3 zero zero one
     \/ Matrix2_mul (transposed (rotationScaling m)) (rotationScaling m)
        <> Matrix2_identity)
  /\ (signals (invertedEuclidean m) NotEuclidean ->
      ~ returns (invertedEuclidean m))
  /\ (~ signals (invertedEuclidean m) NotEuclidean ->
      returns (invertedEuclidean m)
      /\ forall f, ~ signals (invertedEuclidean m) f).
Proof.
  rewrite invertedEuclidean_checks.
  pose proof (last_row_check_spec m) as Hl.
  pose proof (orthogonal_check_spec m) as Ho. unfold orthogonal in Ho.
  destruct (last_row_check m); [destruct (orthogonal_check m) |].
  - assert (Hr : returns
      (Returned (from (transposed (rotationScaling m))
                      (Matrix2_mulv (transposed (rotationScaling m))
                                    (Vector2_opp (translation_of m)))))).
    { eexists. reflexivity. }
    split; [split | split].
    + intros Hs. exfalso. exact (returns_not_signals Hr Hs).
    + intros [H | H]; exfalso; apply H; [apply Hl | apply Ho]; reflexivity.
    + intros Hs. exfalso. exact (returns_not_signals Hr Hs).
    + intros _. split; [exact Hr |].
      intros f. apply returns_not_signals. exact Hr.
  - assert (Hs : signals (@Failed (Matrix3 T) NotEuclideanTransformation)
                         NotEuclidean).
    { eexists. split; reflexivity. }
    split; [split | split].
    + intros _. right. intros H. apply Ho in H. discriminate H.
    + intros _. exact Hs.
    + intros _ [v Hv]. discriminate Hv.
    + intros H. contradiction.
  - assert (Hs : signals (@Failed (Matrix3 T) UnexpectedLastRow)
                         NotEuclidean).
    { eexists. split; reflexivity. }
    split; [split | split].
    + intros _. left. intros H. apply Hl in H. discriminate H.
    + intros _. exact Hs.
    + intros _ [v Hv]. discriminate Hv.
    + intros H. contradiction.
Qed.

(** C9.  Every factory -- [translation], [scaling], [rotation],
    [reflection] of a normal that passes its check, [projection] and
    [from] -- gives a matrix whose last row is exactly [(0, 0, 1)], and
    every matrix with that last row passes the last-row check of
    [invertedEuclidean()]. *)
Theorem factories_last_row :
  (forall v : Vector2 T, row2 (translation v) = mkVector3 zero zero one)
  /\ (forall v : Vector2 T, row2 (scaling v) = mkVector3 zero zero one)
  /\ (forall (Tr : Trig T) (angle : T),
         row2 (rotation angle) = mkVector3 zero zero one)
  /\ (forall n : Vector2 T,
         equals (dot n) one = true ->
         exists m, reflection n = Returned m
                   /\ row2 m = mkVector3 zero zero one)
  /\ (forall s : Vector2 T, row2 (projection s) = mkVector3 zero zero one)
  /\ (forall (r : Matrix2 T) (t : Vector2 T),
         row2 (from r t) = mkVector3 zero zero one)
  /\ (forall m : Matrix3 T,
         row2 m = mkVector3 zero zero one ->
         last_row_check m = true
         /\ invertedEuclidean m <> Failed UnexpectedLastRow).
Proof.
  repeat split; try reflexivity.
  - intros n Hn. eexists. split.
    + apply reflection_returned. exact Hn.
    + reflexivity.
  - apply last_row_check_spec. assumption.
  - rewrite invertedEuclidean_checks.
    assert (Hl : last_row_check m = true)
      by (apply last_row_check_spec; assumption).
    rewrite Hl. destruct (orthogonal_check m); discriminate.
Qed.

End WithEq.

(** ** Facts that need exact arithmetic *)

Section Exact.

Context {T : Type} {S : Scalar T} {E : ExactScalar T}.

Add Ring scalar_ring_inst : scalar_ring.

#[local] Instance ExactScalar_EqScalar : EqScalar T := exact_eq.

Ltac by_components :=
  repeat match goal with
         | |- mkVector2 _ _ = mkVector2 _ _ => f_equal
         | |- mkVector3 _ _ _ = mkVector3 _ _ _ => f_equal
         | |- mkMatrix2 _ _ = mkMatrix2 _ _ => f_equal
         | |- mkMatrix3 _ _ _ = mkMatrix3 _ _ _ => f_equal
         end.

Lemma transposed_involutive (r : Matrix2 T) : transposed (transposed r) = r.
Proof. destruct r as [[a b] [c d]]. reflexivity. Qed.

Lemma Matrix2_mulv_identity (v : Vector2 T) :
  Matrix2_mulv Matrix2_identity v = v.
Proof.
  destruct v as [vx vy]. unfold Matrix2_mulv. simpl. by_components; ring.
Qed.

Lemma Matrix2_mulv_assoc (a b : Matrix2 T) (v : Vector2 T) :
  Matrix2_mulv a (Matrix2_mulv b v) = Matrix2_mulv (Matrix2_mul a b) v.
Proof.
  destruct a as [[a0 a1] [a2 a3]], b as [[b0 b1] [b2 b3]], v as [vx vy].
  unfold Matrix2_mul, Matrix2_mulv. simpl. by_components; ring.
Qed.

Lemma Matrix2_mulv_opp (a : Matrix2 T) (v : Vector2 T) :
  Matrix2_mulv a (Vector2_opp v) = Vector2_opp (Matrix2_mulv a v).
Proof.
  destruct a as [[a0 a1] [a2 a3]], v as [vx vy].
  unfold Matrix2_mulv, Vector2_opp. simpl. by_components; ring.
Qed.

Lemma Vector2_opp_involutive (v : Vector2 T) :
  Vector2_opp (Vector2_opp v) = v.
Proof. destruct v as [vx vy]. unfold Vector2_opp. simpl. by_components; ring. Qed.

Lemma Vector2_add_opp_l (v : Vector2 T) :
  Vector2_add (Vector2_opp v) v = Vector2_zero.
Proof.
  destruct v as [vx vy]. unfold Vector2_add, Vector2_opp, Vector2_zero.
  simpl. by_components; ring.
Qed.

(** Composition of two affine maps given by block and translation. *)
Lemma from_mul (r1 r2 : Matrix2 T) (t1 t2 : Vector2 T) :
  Matrix3_mul (from r1 t1) (from r2 t2) =
  from (Matrix2_mul r1 r2) (Vector2_add (Matrix2_mulv r1 t2) t1).
Proof.
  destruct r1 as [[a0 a1] [a2 a3]], r2 as [[b0 b1] [b2 b3]].
  destruct t1 as [tx ty], t2 as [ux uy].
  unfold Matrix3_mul, Matrix3_mulv, from, from_columns, Vector3_of,
    Matrix2_mul, Matrix2_mulv, Vector2_add.
  simpl. by_components; ring.
Qed.

Lemma from_identity : from Matrix2_identity Vector2_zero = @Matrix3_identity T S.
Proof. reflexivity. Qed.

(** Over a commutative ring a left inverse of a square matrix is a right
    inverse; for the transpose of a 2x2 block the certificates are written
    out. *)
Lemma orthogonal_right_inverse (r : Matrix2 T) :
  orthogonal r -> Matrix2_mul r (transposed r) = Matrix2_identity.
Proof.
  destruct r as [[a b] [c d]]. unfold orthogonal.
  unfold Matrix2_mul, Matrix2_mulv, transposed, Matrix2_identity. simpl.
  intros H. injection H as H1 H2 H3 H4.
  set (h1 := sub (add (mul a a) (mul b b)) one).
  set (h2 := sub (add (mul c c) (mul d d)) one).
  set (h3 := add (mul a c) (mul b d)).
  assert (E1 : h1 = zero) by (unfold h1; rewrite H1; ring).
  assert (E2 : h2 = zero) by (unfold h2; rewrite H4; ring).
  assert (E3 : h3 = zero) by (unfold h3; exact H3).
  by_components.
  - transitivity
      (add one
         (sub (add (add (add (add h1 h2) (mul h1 h2))
                        (mul (mul (add one one) (mul a c)) h3))
                   (opp (mul h3 h3)))
              (add (mul (mul a a) h2) (mul (mul c c) h1)))).
    + unfold h1, h2, h3. ring.
    + rewrite E1, E2, E3. ring.
  - transitivity
      (sub (mul (add (mul b c) (mul a d)) h3)
           (add (mul (mul a b) h2) (mul (mul c d) h1))).
    + unfold h1, h2, h3. ring.
    + rewrite E1, E2, E3. ring.
  - transitivity
      (sub (mul (add (mul b c) (mul a d)) h3)
           (add (mul (mul a b) h2) (mul (mul c d) h1))).
    + unfold h1, h2, h3. ring.
    + rewrite E1, E2, E3. ring.
  - transitivity
      (add one
         (sub (add (add (add (add h1 h2) (mul h1 h2))
                        (mul (mul (add one one) (mul b d)) h3))
                   (opp (mul h3 h3)))
              (add (mul (mul b b) h2) (mul (mul d d) h1)))).
    + unfold h1, h2, h3. ring.
    + rewrite E1, E2, E3. ring.
Qed.

Lemma Vector3_equals_refl (v : Vector3 T) : Vector3_equals v v = true.
Proof. unfold Vector3_equals. rewrite !equals_refl. reflexivity. Qed.

Lemma Matrix3_equals_refl (m : Matrix3 T) : Matrix3_equals m m = true.
Proof. unfold Matrix3_equals. rewrite !Vector3_equals_refl. reflexivity. Qed.

Lemma invertedEuclidean_from (r : Matrix2 T) (t : Vector2 T) :
  orthogonal r ->
  invertedEuclidean (from r t) =
  Returned (from (transposed r)
                 (Matrix2_mulv (transposed r) (Vector2_opp t))).
Proof.
  intros Hr.
  pose proof (rotationScaling_from r t) as Hrs.
  pose proof (translation_of_from r t) as Htr.
  assert (Hrow : row2 (from r t) = mkVector3 zero zero one) by reflexivity.
  assert (Horth : orthogonal (rotationScaling (from r t)))
    by (rewrite Hrs; exact Hr).
  rewrite invertedEuclidean_checks.
  apply last_row_check_spec in Hrow. apply orthogonal_check_spec in Horth.
  rewrite Hrow, Horth, Hrs, Htr. reflexivity.
Qed.

(** C2, as amended.  With exact arithmetic, for an orthogonal block [R]
    and any translation [t], with [M = from(R, t)]:
    [M.invertedEuclidean()] returns a matrix [Minv] with [M * Minv] equal
    to the identity, hence equal within the fuzzy comparison, and
    [Minv.invertedEuclidean()] returns [M] itself, hence a matrix equal to
    [M] within the fuzzy comparison. *)
Theorem invertedEuclidean_inverse (r : Matrix2 T) (t : Vector2 T) :
  orthogonal r ->
  exists Minv M2 : Matrix3 T,
    invertedEuclidean (from r t) = Returned Minv
    /\ Matrix3_mul (from r t) Minv = Matrix3_identity
    /\ Matrix3_equals (Matrix3_mul (from r t) Minv) Matrix3_identity = true
    /\ invertedEuclidean Minv = Returned M2
    /\ M2 = from r t
    /\ Matrix3_equals M2 (from r t) = true.
Proof.
  intros Hr.
  pose proof (orthogonal_right_inverse Hr) as Hright.
  assert (Hprod :
    Matrix3_mul (from r t)
      (from (transposed r) (Matrix2_mulv (transposed r) (Vector2_opp t)))
    = Matrix3_identity).
  { rewrite from_mul, Matrix2_mulv_assoc, Hright, Matrix2_mulv_identity,
      Vector2_add_opp_l.
    apply from_identity. }
  assert (Hback :
    invertedEuclidean
      (from (transposed r) (Matrix2_mulv (transposed r) (Vector2_opp t)))
    = Returned (from r t)).
  { rewrite invertedEuclidean_from.
    - rewrite transposed_involutive, !Matrix2_mulv_opp, Vector2_opp_involutive,
        Matrix2_mulv_assoc, Hright, Matrix2_mulv_identity.
      reflexivity.
    - unfold orthogonal. rewrite transposed_involutive. exact Hright. }
  exists (from (transposed r) (Matrix2_mulv (transposed r) (Vector2_opp t))).
  exists (from r t).
  split; [apply invertedEuclidean_from; exact Hr |].
  split; [exact Hprod |].
  split; [rewrite Hprod; apply Matrix3_equals_refl |].
  split; [exact Hback |].
  split; [reflexivity | apply Matrix3_equals_refl].
Qed.

(** C5, as amended.  With exact arithmetic, for a normal [n] that passes
    the unit-length check, [reflection(n)] returns a matrix with
    rotation/scaling block [I - 2*n*nT], zero translation and last row
    [(0, 0, 1)].  Its square
    is the identity up to the term [4*(dot(n,n) - 1)*n*nT] and it maps
    the point [n] to [-n] up to the term [2*(1 - dot(n,n))*n]; both terms
    vanish when [dot(n,n)] is exactly [1], so then the square is the
    identity and [n] is mapped to [-n]. *)
Theorem reflection_block_involution (n : Vector2 T) :
  equals (dot n) one = true ->
  exists m : Matrix3 T,
    reflection n = Returned m
    /\ rotationScaling m =
       Matrix2_sub Matrix2_identity (Matrix2_scale two (outer n n))
    /\ translation_of m = Vector2_zero
    /\ row2 m = mkVector3 zero zero one
    /\ Matrix3_mul m m =
       from (Matrix2_add Matrix2_identity
               (Matrix2_scale (mul (mul two two) (sub (dot n) one))
                              (outer n n)))
            Vector2_zero
    /\ Matrix3_mulv m (Point2D (x2 n) (y2 n)) =
       Vector3_of
         (Vector2_add (Vector2_opp n)
                      (Vector2_scale (mul two (sub one (dot n))) n))
         one
    /\ (dot n = one ->
        Matrix3_mul m m = Matrix3_identity
        /\ Matrix3_equals (Matrix3_mul m m) Matrix3_identity = true
        /\ Matrix3_mulv m (Point2D (x2 n) (y2 n)) =
           Point2D (opp (x2 n)) (opp (y2 n))
        /\ Vector3_equals (Matrix3_mulv m (Point2D (x2 n) (y2 n)))
                          (Point2D (opp (x2 n)) (opp (y2 n))) = true
        /\ Matrix2_mulv (rotationScaling m) n = Vector2_opp n).
Proof.
  intros Hn. eexists. split; [apply reflection_returned; exact Hn |].
  destruct n as [nx ny].
  assert (Hsq :
    Matrix3_mul
      (from (Matrix2_sub Matrix2_identity
                         (outer (Vector2_scale two (mkVector2 nx ny))
                                (mkVector2 nx ny)))
            Vector2_zero)
      (from (Matrix2_sub Matrix2_identity
                         (outer (Vector2_scale two (mkVector2 nx ny))
                                (mkVector2 nx ny)))
            Vector2_zero)
    = from (Matrix2_add Matrix2_identity
              (Matrix2_scale
                 (mul (mul two two) (sub (dot (mkVector2 nx ny)) one))
                 (outer (mkVector2 nx ny) (mkVector2 nx ny))))
           Vector2_zero).
  { unfold Matrix3_mul, Matrix3_mulv, from, from_columns, Vector3_of,
      Matrix2_sub, Vector2_sub, Matrix2_add, Matrix2_scale, Vector2_scale,
      outer, Matrix2_identity, Vector2_zero, dot.
    simpl. rewrite two_def. by_components; ring. }
  assert (Hpt :
    Matrix3_mulv
      (from (Matrix2_sub Matrix2_identity
                         (outer (Vector2_scale two (mkVector2 nx ny))
                                (mkVector2 nx ny)))
            Vector2_zero)
      (Point2D nx ny)
    = Vector3_of
        (Vector2_add (Vector2_opp (mkVector2 nx ny))
           (Vector2_scale (mul two (sub one (dot (mkVector2 nx ny))))
                          (mkVector2 nx ny)))
        one).
  { unfold Matrix3_mulv, from, from_columns, Vector3_of, Point2D,
      Matrix2_sub, Vector2_sub, Vector2_add, Vector2_opp, Vector2_scale,
      outer, Matrix2_identity, Vector2_zero, dot.
    simpl. rewrite two_def. by_components; ring. }
  split.
  { unfold rotationScaling, from, from_columns, Vector3_of, Matrix2_from, xy,
      Matrix2_sub, Vector2_sub, Matrix2_scale, Vector2_scale, outer.
    simpl. by_components; ring. }
  split; [reflexivity |].
  split; [reflexivity |].
  split; [exact Hsq |].
  split; [exact Hpt |].
  intros Hunit.
  assert (Hid :
    Matrix3_mul
      (from (Matrix2_sub Matrix2_identity
                         (outer (Vector2_scale two (mkVector2 nx ny))
                                (mkVector2 nx ny)))
            Vector2_zero)
      (from (Matrix2_sub Matrix2_identity
                         (outer (Vector2_scale two (mkVector2 nx ny))
                                (mkVector2 nx ny)))
            Vector2_zero)
    = Matrix3_identity).
  { rewrite Hsq, Hunit.
    unfold Matrix3_identity, Matrix3_identity_of, Matrix3_of, from,
      from_columns, Vector3_of, Matrix2_add, Matrix2_scale, Vector2_scale,
      outer, Matrix2_identity, Vector2_zero.
    simpl. by_components; ring. }
  assert (Hneg :
    Matrix3_mulv
      (from (Matrix2_sub Matrix2_identity
                         (outer (Vector2_scale two (mkVector2 nx ny))
                                (mkVector2 nx ny)))
            Vector2_zero)
      (Point2D nx ny)
    = Point2D (opp nx) (opp ny)).
  { rewrite Hpt, Hunit.
    unfold Point2D, Vector3_of, Vector2_add, Vector2_opp, Vector2_scale.
    simpl. by_components; ring. }
  split; [exact Hid |].
  split; [rewrite Hid; apply Matrix3_equals_refl |].
  split; [exact Hneg |].
  split; [simpl x2; simpl y2; rewrite Hneg; apply Vector3_equals_refl |].
  unfold dot in Hunit. simpl in Hunit.
  unfold rotationScaling, from, from_columns, Vector3_of, Matrix2_from, xy,
    Matrix2_sub, Vector2_sub, Vector2_scale, outer, Matrix2_identity,
    Matrix2_mulv, Vector2_opp.
  simpl. rewrite two_def. by_components.
  - transitivity
      (sub nx (mul (mul (add one one) nx)
                   (add (mul nx nx) (mul ny ny)))).
    + ring.
    + rewrite Hunit. ring.
  - transitivity
      (sub ny (mul (mul (add one one) ny)
                   (add (mul nx nx) (mul ny ny)))).
    + ring.
    + rewrite Hunit. ring.
Qed.

End Exact.

(** ** Projection and rotation *)

Section Projection.

Context {T : Type} {S : Scalar T}.

(** C6.  [projection(s)] is [scaling] applied to the componentwise
    quotient [2/s]: the diagonal matrix with entries [2/s.x], [2/s.y], [1]
    and zero translation.  This holds for every [s], so in particular for
    those with nonzero components.  When [2/2] is [1], [projection({2,2})]
    is [scaling({1,1})], the identity matrix. *)
Theorem projection_scaling (s : Vector2 T) :
  projection s = scaling (mkVector2 (div two (x2 s)) (div two (y2 s)))
  /\ projection s =
     Matrix3_of (div two (x2 s)) zero zero
                zero (div two (y2 s)) zero
                zero zero one
  /\ translation_of (projection s) = Vector2_zero
  /\ (div two two = one ->
      projection (mkVector2 two two) = scaling (mkVector2 one one)
      /\ projection (mkVector2 two two) = Matrix3_identity).
Proof.
  split; [reflexivity |].
  split; [reflexivity |].
  split; [reflexivity |].
  intros Hdiv. unfold projection, Vector2_rdiv. simpl. rewrite Hdiv.
  split; reflexivity.
Qed.

End Projection.

(** C7.  For every angle, [rotation(angle)] has columns
    [(cos, sin, 0)], [(-sin, cos, 0)] and [(0, 0, 1)].  Over the real
    numbers [rotation(pi/2)] maps the point [(1, 0)] to [(0, 1)], which the
    fuzzy comparison accepts for every tolerance: the rotation is
    counterclockwise. *)
Theorem rotation_counterclockwise :
  (forall (T : Type) (S : Scalar T) (Tr : Trig T) (angle : T),
      col0 (rotation angle)
      = mkVector3 (std_cos angle) (std_sin angle) zero
      /\ col1 (rotation angle)
         = mkVector3 (opp (std_sin angle)) (std_cos angle) zero
      /\ col2 (rotation angle) = mkVector3 zero zero one)
  /\ (forall eps : posreal,
      @Matrix3_mulv R (R_Scalar eps)
         (@rotation R (R_Scalar eps) R_Trig (PI / 2)%R)
         (@Point2D R (R_Scalar eps) 1%R 0%R)
      = @Point2D R (R_Scalar eps) 0%R 1%R
      /\ @Vector3_equals R (R_Scalar eps)
           (@Matrix3_mulv R (R_Scalar eps)
              (@rotation R (R_Scalar eps) R_Trig (PI / 2)%R)
              (@Point2D R (R_Scalar eps) 1%R 0%R))
           (@Point2D R (R_Scalar eps) 0%R 1%R)
         = true).
Proof.
  split.
  - intros T S Tr angle. repeat split.
  - intros eps.
    assert (Hmap :
      @Matrix3_mulv R (R_Scalar eps)
         (@rotation R (R_Scalar eps) R_Trig (PI / 2)%R)
         (@Point2D R (R_Scalar eps) 1%R 0%R)
      = @Point2D R (R_Scalar eps) 0%R 1%R).
    { unfold Matrix3_mulv, rotation, Matrix3_of, Point2D. simpl.
      rewrite sin_PI2, cos_PI2. f_equal; ring. }
    split; [exact Hmap |].
    rewrite Hmap.
    apply (@Vector3_equals_refl R (R_Scalar eps) (R_ExactScalar eps)).
Qed.

(** ** The theorems at [Matrix3<int>] *)

#[local] Existing Instance Z_Scalar.

Lemma invertedEuclidean_transpose_negate_witness :
  row2 turn_and_shift = mkVector3 0%Z 0%Z 1%Z
  /\ orthogonal (rotationScaling turn_and_shift)
  /\ invertedEuclidean turn_and_shift =
     Returned (Matrix3_of 0 (-1) 0
                          1 0 0
                          (-4) 3 1)%Z.
Proof.
  split; [reflexivity |]. split; [reflexivity |].
  exact (proj1 (@invertedEuclidean_transpose_negate Z Z_Scalar Z_EqScalar
                  turn_and_shift eq_refl eq_refl)).
Defined.

Lemma invertedEuclidean_inverse_witness :
  orthogonal quarter_turn
  /\ exists Minv M2 : Matrix3 Z,
       invertedEuclidean turn_and_shift = Returned Minv
       /\ Matrix3_mul turn_and_shift Minv = Matrix3_identity
       /\ Matrix3_equals (Matrix3_mul turn_and_shift Minv) Matrix3_identity
          = true
       /\ invertedEuclidean Minv = Returned M2
       /\ M2 = turn_and_shift
       /\ Matrix3_equals M2 turn_and_shift = true.
Proof.
  split; [reflexivity |].
  exact (@invertedEuclidean_inverse Z Z_Scalar Z_ExactScalar
           quarter_turn (mkVector2 3%Z 4%Z) eq_refl).
Defined.

Lemma invertedEuclidean_signals_iff_witness :
  signals (invertedEuclidean (scaling (mkVector2 2%Z 2%Z))) NotEuclidean
  /\ returns (invertedEuclidean turn_and_shift).
Proof.
  split.
  - apply (proj1 (@invertedEuclidean_signals_iff Z Z_Scalar Z_EqScalar
                    (scaling (mkVector2 2%Z 2%Z)))).
    right. intros H. discriminate H.
  - apply (proj2 (proj2 (@invertedEuclidean_signals_iff Z Z_Scalar Z_EqScalar
                           turn_and_shift))).
    intros [a [H _]]. discriminate H.
Defined.

Lemma reflection_signals_iff_witness :
  signals (reflection (mkVector2 1%Z 1%Z)) InvalidNormal
  /\ returns (reflection y_axis).
Proof.
  split.
  - apply (proj1 (@reflection_signals_iff Z Z_Scalar (mkVector2 1%Z 1%Z))).
    reflexivity.
  - apply (proj2 (@reflection_signals_iff Z Z_Scalar y_axis)).
    reflexivity.
Defined.

Lemma reflection_block_involution_witness :
  equals (dot y_axis) 1%Z = true
  /\ exists m : Matrix3 Z,
       reflection y_axis = Returned m
       /\ Matrix3_mul m m = Matrix3_identity
       /\ Matrix3_mulv m (mkVector3 0 1 1)%Z = (mkVector3 0 (-1) 1)%Z.
Proof.
  split; [reflexivity |].
  destruct (@reflection_block_involution Z Z_Scalar Z_ExactScalar
              y_axis eq_refl)
    as [m [Hm [_ [_ [_ [_ [_ Hunit]]]]]]].
  destruct (Hunit eq_refl) as [Hid [_ [Hneg _]]].
  exists m. split; [exact Hm |]. split; [exact Hid | exact Hneg].
Defined.

Lemma projection_scaling_witness :
  div 2%Z 2%Z = 1%Z
  /\ projection (mkVector2 2%Z 2%Z) = Matrix3_identity.
Proof.
  split; [reflexivity |].
  exact (proj2 (proj2 (proj2 (proj2
           (@projection_scaling Z Z_Scalar (mkVector2 2%Z 2%Z)))) eq_refl)).
Defined.

Lemma factories_last_row_witness :
  row2 turn_and_shift = mkVector3 0%Z 0%Z 1%Z
  /\ last_row_check turn_and_shift = true.
Proof.
  split.
  - exact (proj1 (proj2 (proj2 (proj2 (proj2 (proj2
             (@factories_last_row Z Z_Scalar Z_EqScalar))))))
             quarter_turn (mkVector2 3%Z 4%Z)).
  - exact (proj1 (proj2 (proj2 (proj2 (proj2 (proj2 (proj2
             (@factories_last_row Z Z_Scalar Z_EqScalar))))))
             turn_and_shift eq_refl)).
Defined.

(** ** Further properties of the header: decomposition and accessors *)

Section Accessors.

Context {T : Type} {S : Scalar T}.

Lemma from_rotationScaling_translation_iff (m : Matrix3 T) :
  from (rotationScaling m) (translation_of m) = m
  <-> row2 m = mkVector3 zero zero one.
Proof.
  destruct m as [[a b c] [d e f] [g h i]].
  unfold from, from_columns, Vector3_of, rotationScaling, Matrix2_from,
    translation_of, xy, row2, at02, at12, at22.
  simpl. split.
  - intros H. injection H as -> -> ->. reflexivity.
  - intros H. injection H as -> -> ->. reflexivity.
Qed.

(** X1.  Taking a matrix apart with [rotationScaling()] and [translation()]
    and putting it together again with [from] gives the matrix back exactly
    when its last row is [(0, 0, 1)]: [from] keeps the block and the
    translation and overwrites the last row. *)
Theorem decompose_recompose (m : Matrix3 T) :
  (from (rotationScaling m) (translation_of m) = m
   <-> row2 m = mkVector3 zero zero one)
  /\ rotationScaling (from (rotationScaling m) (translation_of m))
     = rotationScaling m
  /\ translation_of (from (rotationScaling m) (translation_of m))
     = translation_of m.
Proof.
  split; [apply from_rotationScaling_translation_iff |].
  split; [apply rotationScaling_from | apply translation_of_from].
Qed.

Lemma last_row_check_assign_translation (m : Matrix3 T) (v : Vector2 T) :
  last_row_check (assign_translation m v) = last_row_check m.
Proof. reflexivity. Qed.

Lemma orthogonal_check_assign_translation (m : Matrix3 T) (v : Vector2 T) :
  orthogonal_check (assign_translation m v) = orthogonal_check m.
Proof. reflexivity. Qed.

(** X2.  A write through the reference returned by [translation()] is read
    back by [translation() const], leaves the rotation/scaling block and
    the last row as they were, and is overwritten by a later write.  Both
    checks of [invertedEuclidean()] ignore the translation: the call
    returns after the write exactly when it returned before, and then the
    inverse has the old transposed block and the new translation rotated
    back. *)
Theorem assign_translation_frame (m : Matrix3 T) (v : Vector2 T) :
  translation_of (assign_translation m v) = v
  /\ rotationScaling (assign_translation m v) = rotationScaling m
  /\ row2 (assign_translation m v) = row2 m
  /\ assign_translation m (translation_of m) = m
  /\ (forall w : Vector2 T,
        assign_translation (assign_translation m v) w
        = assign_translation m w)
  /\ (returns (invertedEuclidean (assign_translation m v))
      <-> returns (invertedEuclidean m))
  /\ (returns (invertedEuclidean m) ->
      invertedEuclidean (assign_translation m v) =
      Returned (from (transposed (rotationScaling m))
                     (Matrix2_mulv (transposed (rotationScaling m))
                                   (Vector2_opp v)))).
Proof.
  assert (Hinv :
    invertedEuclidean (assign_translation m v) =
    if last_row_check m then
      if orthogonal_check m then
        Returned (from (transposed (rotationScaling m))
                       (Matrix2_mulv (transposed (rotationScaling m))
                                     (Vector2_opp v)))
      else Failed NotEuclideanTransformation
    else Failed UnexpectedLastRow).
  { destruct v as [vx vy]. reflexivity. }
  assert (Hm :
    invertedEuclidean m =
    if last_row_check m then
      if orthogonal_check m then
        Returned (from (transposed (rotationScaling m))
                       (Matrix2_mulv (transposed (rotationScaling m))
                                     (Vector2_opp (translation_of m))))
      else Failed NotEuclideanTransformation
    else Failed UnexpectedLastRow) by reflexivity.
  split; [destruct v; reflexivity |].
  split; [reflexivity |].
  split; [reflexivity |].
  split; [destruct m as [c0 c1 [g h i]]; reflexivity |].
  split; [intros w; reflexivity |].
  rewrite Hinv, Hm.
  destruct (last_row_check m); [destruct (orthogonal_check m) |].
  - split; [| intros _; reflexivity].
    split; intros _; eexists; reflexivity.
  - split; [split |]; intros [x Hx]; discriminate Hx.
  - split; [split |]; intros [x Hx]; discriminate Hx.
Qed.

End Accessors.

Section ChecksWithEq.

Context {T : Type} {S : Scalar T} {E : EqScalar T}.

(** X3.  [invertedEuclidean()] tests the last row first.  The message
    about the last row is given exactly when the last row is not
    [(0, 0, 1)], whatever the block is; the message about the Euclidean
    transformation is given exactly when the last row is right and the
    block is not orthogonal; the assertion of [reflection()] is never
    reported. *)
Theorem invertedEuclidean_first_failure (m : Matrix3 T) :
  (invertedEuclidean m = Failed UnexpectedLastRow
   <-> row2 m <> mkVector3 zero zero one)
  /\ (invertedEuclidean m = Failed NotEuclideanTransformation
      <-> row2 m = mkVector3 zero zero one
          /\ ~ orthogonal (rotationScaling m))
  /\ invertedEuclidean m <> Failed NormalNotNormalized.
Proof.
  rewrite invertedEuclidean_checks.
  pose proof (last_row_check_spec m) as Hl.
  pose proof (orthogonal_check_spec m) as Ho.
  destruct (last_row_check m); [destruct (orthogonal_check m) |].
  - split; [split | split; [split |]].
    + intros H. discriminate H.
    + intros H. exfalso. apply H. apply Hl. reflexivity.
    + intros H. discriminate H.
    + intros [_ H]. exfalso. apply H. apply Ho. reflexivity.
    + intros H. discriminate H.
  - split; [split | split; [split |]].
    + intros H. discriminate H.
    + intros H. exfalso. apply H. apply Hl. reflexivity.
    + intros _. split; [apply Hl; reflexivity |].
      intros H. apply Ho in H. discriminate H.
    + intros _. reflexivity.
    + intros H. discriminate H.
  - split; [split | split; [split |]].
    + intros _ H. apply Hl in H. discriminate H.
    + intros _. reflexivity.
    + intros H. discriminate H.
    + intros [H _]. apply Hl in H. discriminate H.
    + intros H. discriminate H.
Qed.

(** X4.  The orthogonality test of [invertedEuclidean()] says that the axes
    [right()] and [up()] are orthonormal: for a matrix with last row
    [(0, 0, 1)] the call returns exactly when both axes have dot product
    [1] with themselves and dot product [0] with each other. *)
Theorem invertedEuclidean_orthonormal_axes (m : Matrix3 T) :
  row2 m = mkVector3 zero zero one ->
  (returns (invertedEuclidean m)
   <-> dot (right m) = one /\ dot (up m) = one
       /\ dot2 (right m) (up m) = zero /\ dot2 (up m) (right m) = zero).
Proof.
  intros Hrow. rewrite invertedEuclidean_checks.
  apply last_row_check_spec in Hrow. rewrite Hrow.
  pose proof (orthogonal_check_spec m) as Ho.
  assert (Hax :
    orthogonal (rotationScaling m)
    <-> dot (right m) = one /\ dot (up m) = one
        /\ dot2 (right m) (up m) = zero /\ dot2 (up m) (right m) = zero).
  { destruct m as [[a b c] [d e f] [g h i]].
    unfold orthogonal, Matrix2_mul, Matrix2_mulv, transposed,
      rotationScaling, Matrix2_from, xy, Matrix2_identity, dot, dot2,
      right, up.
    simpl. split.
    - intros H. injection H as H1 H2 H3 H4. repeat split; assumption.
    - intros [H1 [H4 [H3 H2]]]. rewrite H1, H2, H3, H4. reflexivity. }
  destruct (orthogonal_check m).
  - split.
    + intros _. apply Hax. apply Ho. reflexivity.
    + intros _. eexists. reflexivity.
  - split.
    + intros [x Hx]. discriminate Hx.
    + intros H. apply Hax in H. apply Ho in H. discriminate H.
Qed.

End ChecksWithEq.

(** ** Further properties of the header: algebra of the transformations *)

Ltac componentwise :=
  repeat match goal with
         | |- mkVector2 _ _ = mkVector2 _ _ => f_equal
         | |- mkVector3 _ _ _ = mkVector3 _ _ _ => f_equal
         | |- mkMatrix2 _ _ = mkMatrix2 _ _ => f_equal
         | |- mkMatrix3 _ _ _ = mkMatrix3 _ _ _ => f_equal
         end.

Section Algebra.

Context {T : Type} {S : Scalar T} {E : ExactScalar T}.

Add Ring scalar_ring_algebra : scalar_ring.

#[local] Instance Algebra_EqScalar : EqScalar T := exact_eq.

Lemma invertedEuclidean_returned (m minv : Matrix3 T) :
  invertedEuclidean m = Returned minv ->
  m = from (rotationScaling m) (translation_of m)
  /\ orthogonal (rotationScaling m)
  /\ minv = from (transposed (rotationScaling m))
                 (Matrix2_mulv (transposed (rotationScaling m))
                               (Vector2_opp (translation_of m))).
Proof.
  rewrite invertedEuclidean_checks.
  pose proof (last_row_check_spec m) as Hl.
  pose proof (orthogonal_check_spec m) as Ho.
  destruct (last_row_check m); [destruct (orthogonal_check m) |];
    intros H; try discriminate H.
  injection H as <-.
  split; [| split; [apply Ho; reflexivity | reflexivity]].
  symmetry. apply from_rotationScaling_translation_iff.
  apply Hl. reflexivity.
Qed.

Lemma Matrix3_mulv_assoc (a b : Matrix3 T) (p : Vector3 T) :
  Matrix3_mulv a (Matrix3_mulv b p) = Matrix3_mulv (Matrix3_mul a b) p.
Proof.
  destruct a as [[a0 a1 a2] [a3 a4 a5] [a6 a7 a8]].
  destruct b as [[b0 b1 b2] [b3 b4 b5] [b6 b7 b8]].
  destruct p as [px py pz].
  unfold Matrix3_mul, Matrix3_mulv. simpl. componentwise; ring.
Qed.

Lemma Matrix3_mulv_identity (p : Vector3 T) :
  Matrix3_mulv Matrix3_identity p = p.
Proof.
  destruct p as [px py pz].
  unfold Matrix3_mulv, Matrix3_identity, Matrix3_identity_of, Matrix3_of.
  simpl. componentwise; ring.
Qed.

Lemma Matrix2_mul_assoc (a b c : Matrix2 T) :
  Matrix2_mul a (Matrix2_mul b c) = Matrix2_mul (Matrix2_mul a b) c.
Proof.
  unfold Matrix2_mul at 1 2. simpl.
  rewrite !Matrix2_mulv_assoc. reflexivity.
Qed.

Lemma Matrix2_mul_identity_l (a : Matrix2 T) :
  Matrix2_mul Matrix2_identity a = a.
Proof.
  destruct a as [u v]. unfold Matrix2_mul. simpl.
  rewrite !Matrix2_mulv_identity. reflexivity.
Qed.

Lemma transposed_mul (a b : Matrix2 T) :
  transposed (Matrix2_mul a b) = Matrix2_mul (transposed b) (transposed a).
Proof.
  destruct a as [[a0 a1] [a2 a3]], b as [[b0 b1] [b2 b3]].
  unfold Matrix2_mul, Matrix2_mulv, transposed. simpl.
  componentwise; ring.
Qed.

Lemma Matrix2_mulv_add (a : Matrix2 T) (u v : Vector2 T) :
  Matrix2_mulv a (Vector2_add u v)
  = Vector2_add (Matrix2_mulv a u) (Matrix2_mulv a v).
Proof.
  destruct a as [[a0 a1] [a2 a3]], u as [ux uy], v as [vx vy].
  unfold Matrix2_mulv, Vector2_add. simpl. componentwise; ring.
Qed.

Lemma Vector2_opp_add (u v : Vector2 T) :
  Vector2_opp (Vector2_add u v)
  = Vector2_add (Vector2_opp v) (Vector2_opp u).
Proof.
  destruct u as [ux uy], v as [vx vy].
  unfold Vector2_opp, Vector2_add. simpl. componentwise; ring.
Qed.

Lemma orthogonal_mul (a b : Matrix2 T) :
  orthogonal a -> orthogonal b -> orthogonal (Matrix2_mul a b).
Proof.
  unfold orthogonal. intros Ha Hb.
  rewrite transposed_mul, <- Matrix2_mul_assoc.
  rewrite (Matrix2_mul_assoc (transposed a) a b), Ha, Matrix2_mul_identity_l.
  exact Hb.
Qed.

Lemma inverse_products (r : Matrix2 T) (t : Vector2 T) :
  orthogonal r ->
  Matrix3_mul (from (transposed r)
                    (Matrix2_mulv (transposed r) (Vector2_opp t)))
              (from r t)
  = Matrix3_identity
  /\ Matrix3_mul (from r t)
                 (from (transposed r)
                       (Matrix2_mulv (transposed r) (Vector2_opp t)))
     = Matrix3_identity.
Proof.
  intros Hr. pose proof (@orthogonal_right_inverse T S E r Hr) as Hright.
  unfold orthogonal in Hr. split.
  - rewrite from_mul, Hr, Matrix2_mulv_opp.
    replace (Vector2_add (Matrix2_mulv (transposed r) t)
                         (Vector2_opp (Matrix2_mulv (transposed r) t)))
      with (@Vector2_zero T S).
    + apply from_identity.
    + destruct (Matrix2_mulv (transposed r) t) as [wx wy].
      unfold Vector2_add, Vector2_opp, Vector2_zero. simpl.
      componentwise; ring.
  - rewrite from_mul, Matrix2_mulv_assoc, Hright, Matrix2_mulv_identity,
      Vector2_add_opp_l.
    apply from_identity.
Qed.

(** X5.  When [invertedEuclidean()] returns, the returned matrix is a
    two-sided inverse: both products with the argument are the identity,
    applying it after the argument gives every vector back, and inverting
    it again returns the argument. *)
Theorem invertedEuclidean_two_sided (m minv : Matrix3 T) :
  invertedEuclidean m = Returned minv ->
  Matrix3_mul minv m = Matrix3_identity
  /\ Matrix3_mul m minv = Matrix3_identity
  /\ (forall p : Vector3 T, mul_point minv (mul_point m p) = p)
  /\ (forall p : Vector3 T, mul_point m (mul_point minv p) = p)
  /\ invertedEuclidean minv = Returned m.
Proof.
  intros H. destruct (@invertedEuclidean_returned m minv H) as [Hm [Ho Hinv]].
  destruct (@inverse_products (rotationScaling m) (translation_of m) Ho) as [Hleft Hright].
  rewrite <- Hinv, <- Hm in Hleft, Hright.
  split; [exact Hleft |]. split; [exact Hright |].
  unfold mul_point.
  split; [intros p; rewrite Matrix3_mulv_assoc, Hleft;
          apply Matrix3_mulv_identity |].
  split; [intros p; rewrite Matrix3_mulv_assoc, Hright;
          apply Matrix3_mulv_identity |].
  rewrite Hinv, invertedEuclidean_from.
  - rewrite transposed_involutive, !Matrix2_mulv_opp, Vector2_opp_involutive,
      Matrix2_mulv_assoc, (@orthogonal_right_inverse T S E _ Ho),
      Matrix2_mulv_identity.
    rewrite <- Hm. reflexivity.
  - unfold orthogonal. rewrite transposed_involutive.
    apply orthogonal_right_inverse. exact Ho.
Qed.

(** X6.  Matrices accepted by [invertedEuclidean()] are closed under
    multiplication, and the inverse of a product is the product of the
    inverses in reverse order. *)
Theorem invertedEuclidean_product (a b ainv binv : Matrix3 T) :
  invertedEuclidean a = Returned ainv ->
  invertedEuclidean b = Returned binv ->
  invertedEuclidean (Matrix3_mul a b) = Returned (Matrix3_mul binv ainv).
Proof.
  intros Ha Hb.
  destruct (@invertedEuclidean_returned a ainv Ha) as [Ea [Oa Ia]].
  destruct (@invertedEuclidean_returned b binv Hb) as [Eb [Ob Ib]].
  set (ra := rotationScaling a) in *. set (ta := translation_of a) in *.
  set (rb := rotationScaling b) in *. set (tb := translation_of b) in *.
  rewrite Ea, Eb, Ia, Ib, !from_mul.
  rewrite invertedEuclidean_from by (apply orthogonal_mul; assumption).
  f_equal. rewrite transposed_mul. f_equal.
  rewrite Vector2_opp_add, Matrix2_mulv_add.
  rewrite <- !Matrix2_mulv_assoc. f_equal.
  rewrite !Matrix2_mulv_opp. f_equal. f_equal.
  rewrite Matrix2_mulv_assoc. unfold orthogonal in Oa. rewrite Oa.
  apply Matrix2_mulv_identity.
Qed.

Lemma orthogonal_identity : orthogonal (@Matrix2_identity T S).
Proof.
  unfold orthogonal, Matrix2_mul, Matrix2_mulv, transposed, Matrix2_identity.
  simpl. componentwise; ring.
Qed.

Lemma Vector2_add_zero_l (v : Vector2 T) : Vector2_add Vector2_zero v = v.
Proof.
  destruct v as [vx vy]. unfold Vector2_add, Vector2_zero. simpl.
  componentwise; ring.
Qed.

(** X7.  Translations compose by adding their vectors, in either order,
    and [invertedEuclidean()] accepts every translation and returns the
    translation by the negated vector. *)
Theorem translation_compose_invert (u v : Vector2 T) :
  Matrix3_mul (translation u) (translation v)
  = translation (Vector2_add u v)
  /\ Matrix3_mul (translation u) (translation v)
     = Matrix3_mul (translation v) (translation u)
  /\ invertedEuclidean (translation v) = Returned (translation (Vector2_opp v)).
Proof.
  assert (Hmul : forall a b : Vector2 T,
    Matrix3_mul (translation a) (translation b)
    = translation (Vector2_add a b)).
  { intros [ax ay] [bx by'].
    unfold Matrix3_mul, Matrix3_mulv, translation, Matrix3_of, Vector2_add.
    simpl. componentwise; ring. }
  split; [apply Hmul |]. split.
  - rewrite !Hmul. f_equal. destruct u as [ux uy], v as [vx vy].
    unfold Vector2_add. simpl. componentwise; ring.
  - change (translation v) with (from Matrix2_identity v).
    rewrite (invertedEuclidean_from v orthogonal_identity).
    f_equal. destruct v as [vx vy].
    unfold from, from_columns, Vector3_of, translation, Matrix3_of,
      Matrix2_mulv, transposed, Matrix2_identity, Vector2_opp.
    simpl. componentwise; ring.
Qed.

(** X8.  Scalings compose by multiplying their vectors componentwise.
    [invertedEuclidean()] returns on [scaling(v)] only when both components
    of [v] square to [1], and then returns [scaling(v)] itself; any other
    scaling fails the orthogonality assertion. *)
Theorem scaling_compose_invert (u v : Vector2 T) :
  Matrix3_mul (scaling u) (scaling v) = scaling (Vector2_mul u v)
  /\ (mul (x2 v) (x2 v) = one /\ mul (y2 v) (y2 v) = one ->
      invertedEuclidean (scaling v) = Returned (scaling v))
  /\ (mul (x2 v) (x2 v) <> one \/ mul (y2 v) (y2 v) <> one ->
      invertedEuclidean (scaling v) = Failed NotEuclideanTransformation).
Proof.
  destruct u as [ux uy], v as [vx vy]. simpl.
  assert (Hblock :
    Matrix2_mul (transposed (rotationScaling (scaling (mkVector2 vx vy))))
                (rotationScaling (scaling (mkVector2 vx vy)))
    = mkMatrix2 (mkVector2 (mul vx vx) zero) (mkVector2 zero (mul vy vy))).
  { unfold Matrix2_mul, Matrix2_mulv, transposed, rotationScaling,
      Matrix2_from, xy, scaling, Matrix3_of.
    simpl. componentwise; ring. }
  assert (Hrow : last_row_check (scaling (mkVector2 vx vy)) = true).
  { apply last_row_check_spec. reflexivity. }
  split; [| split].
  - unfold Matrix3_mul, Matrix3_mulv, scaling, Matrix3_of, Vector2_mul.
    simpl. componentwise; ring.
  - intros [Hx Hy]. rewrite invertedEuclidean_checks, Hrow.
    assert (Ho : orthogonal_check (scaling (mkVector2 vx vy)) = true).
    { apply orthogonal_check_spec. unfold orthogonal.
      rewrite Hblock, Hx, Hy. reflexivity. }
    rewrite Ho. f_equal.
    unfold from, from_columns, Vector3_of, Matrix2_mulv, transposed,
      rotationScaling, Matrix2_from, xy, translation_of, Vector2_opp,
      scaling, Matrix3_of.
    simpl. componentwise; ring.
  - intros Hne. rewrite invertedEuclidean_checks, Hrow.
    destruct (orthogonal_check (scaling (mkVector2 vx vy))) eqn:Ho;
      [| reflexivity].
    exfalso. apply orthogonal_check_spec in Ho. unfold orthogonal in Ho.
    rewrite Hblock in Ho. injection Ho as Hx Hy.
    destruct Hne as [Hne | Hne]; apply Hne; assumption.
Qed.

Lemma reflection_block_symmetric (n : Vector2 T) :
  transposed (Matrix2_sub Matrix2_identity
                          (outer (Vector2_scale two n) n))
  = Matrix2_sub Matrix2_identity (outer (Vector2_scale two n) n).
Proof.
  destruct n as [nx ny].
  unfold transposed, Matrix2_sub, Vector2_sub, outer, Vector2_scale,
    Matrix2_identity.
  simpl. componentwise; ring.
Qed.

Lemma reflection_block_orthogonal (n : Vector2 T) :
  dot n = one ->
  orthogonal (Matrix2_sub Matrix2_identity
                          (outer (Vector2_scale two n) n)).
Proof.
  intros Hn. unfold orthogonal. rewrite reflection_block_symmetric.
  destruct n as [nx ny]. unfold dot in Hn. simpl in Hn.
  unfold Matrix2_mul, Matrix2_mulv, Matrix2_sub, Vector2_sub, outer,
    Vector2_scale, Matrix2_identity.
  simpl. rewrite two_def.
  set (h := sub (add (mul nx nx) (mul ny ny)) one).
  assert (Eh : h = zero) by (unfold h; rewrite Hn; ring).
  set (four := add (add one one) (add one one)).
  componentwise.
  - transitivity (add one (mul (mul four (mul nx nx)) h)).
    + unfold h, four. ring.
    + rewrite Eh. ring.
  - transitivity (mul (mul four (mul nx ny)) h).
    + unfold h, four. ring.
    + rewrite Eh. ring.
  - transitivity (mul (mul four (mul nx ny)) h).
    + unfold h, four. ring.
    + rewrite Eh. ring.
  - transitivity (add one (mul (mul four (mul ny ny)) h)).
    + unfold h, four. ring.
    + rewrite Eh. ring.
Qed.

(** X9.  [reflection] does not tell a normal from its negation: both pass
    or fail the check together and give the same matrix.  For a normal of
    dot product exactly [1] the returned matrix is accepted by
    [invertedEuclidean()], which returns the same matrix: a reflection is
    its own inverse also by the fast inverse. *)
Theorem reflection_negated_normal_and_inverse (n : Vector2 T) :
  reflection (Vector2_opp n) = reflection n
  /\ (dot n = one ->
      exists m : Matrix3 T,
        reflection n = Returned m /\ invertedEuclidean m = Returned m).
Proof.
  split.
  - assert (Hdot : dot (Vector2_opp n) = dot n).
    { destruct n as [nx ny]. unfold dot, Vector2_opp. simpl. ring. }
    unfold reflection. rewrite Hdot. f_equal. f_equal. f_equal. f_equal.
    destruct n as [nx ny]. unfold outer, Vector2_scale, Vector2_opp. simpl.
    componentwise; ring.
  - intros Hn. eexists. split.
    + apply reflection_returned. rewrite Hn. apply equals_refl.
    + rewrite (invertedEuclidean_from Vector2_zero
                 (reflection_block_orthogonal n Hn)).
      rewrite reflection_block_symmetric. f_equal. f_equal.
      unfold Matrix2_mulv, Vector2_opp, Vector2_zero. simpl.
      componentwise; ring.
Qed.

(** X10.  The point product is the affine action: [from(R, t)] sends the
    point [(x, y)] to the point [R * (x, y) + t], [translation(v)] adds [v],
    [scaling(v)] multiplies componentwise, and every matrix whose last row
    is [(0, 0, 1)] sends points (third component [1]) to points. *)
Theorem mul_point_affine (r : Matrix2 T) (t v : Vector2 T) (x y : T) :
  mul_point (from r t) (Point2D x y)
  = Vector3_of (Vector2_add (Matrix2_mulv r (mkVector2 x y)) t) one
  /\ mul_point (translation v) (Point2D x y)
     = Point2D (add x (x2 v)) (add y (y2 v))
  /\ mul_point (scaling v) (Point2D x y)
     = Point2D (mul (x2 v) x) (mul (y2 v) y)
  /\ (forall m : Matrix3 T,
        row2 m = mkVector3 zero zero one ->
        z3 (mul_point m (Point2D x y)) = one).
Proof.
  destruct r as [[a b] [c d]], t as [tx ty], v as [vx vy].
  unfold mul_point, Matrix3_mulv, Point2D, from, from_columns, Vector3_of,
    Vector2_add, Matrix2_mulv, translation, scaling, Matrix3_of.
  simpl. repeat split; try (componentwise; ring).
  intros [[m0 m1 m2] [m3 m4 m5] [m6 m7 m8]] Hrow.
  unfold row2, at02, at12, at22 in Hrow. simpl in Hrow.
  injection Hrow as -> -> ->. simpl. ring.
Qed.

(** X11.  The default matrix [Matrix3()] is neutral for multiplication on
    both sides and is its own [invertedEuclidean()].  [Matrix3(Identity,
    value)] multiplies every element by [value], and is accepted by
    [invertedEuclidean()] only for [value] equal to [1]: any other value
    fails the last-row assertion.  [Matrix3(Zero)] absorbs. *)
Theorem identity_constructor (m : Matrix3 T) (value : T) :
  Matrix3_mul Matrix3_identity m = m
  /\ Matrix3_mul m Matrix3_identity = m
  /\ invertedEuclidean (@Matrix3_identity T S) = Returned Matrix3_identity
  /\ (forall p : Vector3 T,
        mul_point (Matrix3_identity_of value) p
        = mkVector3 (mul value (x3 p)) (mul value (y3 p))
                    (mul value (z3 p)))
  /\ (value <> one ->
      invertedEuclidean (Matrix3_identity_of value)
      = Failed UnexpectedLastRow)
  /\ Matrix3_mul Matrix3_zero m = Matrix3_zero.
Proof.
  destruct m as [[m0 m1 m2] [m3 m4 m5] [m6 m7 m8]].
  split; [| split; [| split; [| split; [| split]]]].
  - unfold Matrix3_mul, Matrix3_mulv, Matrix3_identity, Matrix3_identity_of,
      Matrix3_of.
    simpl. componentwise; ring.
  - unfold Matrix3_mul, Matrix3_mulv, Matrix3_identity, Matrix3_identity_of,
      Matrix3_of.
    simpl. componentwise; ring.
  - change (@Matrix3_identity T S) with (from Matrix2_identity Vector2_zero).
    rewrite (invertedEuclidean_from Vector2_zero orthogonal_identity).
    f_equal.
    unfold from, from_columns, Vector3_of, Matrix2_mulv, transposed,
      Matrix2_identity, Vector2_opp, Vector2_zero.
    simpl. componentwise; ring.
  - intros [px py pz].
    unfold mul_point, Matrix3_mulv, Matrix3_identity_of, Matrix3_of.
    simpl. componentwise; ring.
  - intros Hv. rewrite invertedEuclidean_checks.
    assert (Hl : last_row_check (Matrix3_identity_of value) = false).
    { destruct (last_row_check (Matrix3_identity_of value)) eqn:Hc;
        [| reflexivity].
      apply last_row_check_spec in Hc.
      unfold row2, at02, at12, at22, Matrix3_identity_of, Matrix3_of in Hc.
      simpl in Hc. injection Hc as Hc. contradiction. }
    rewrite Hl. reflexivity.
  - unfold Matrix3_mul, Matrix3_mulv, Matrix3_zero, Matrix3_of.
    simpl. componentwise; ring.
Qed.

End Algebra.

(** ** Further properties of the header: rotation and projection over the
    real numbers *)

Section RealMatrices.

Variable eps : posreal.

Local Open Scope R_scope.

Local Notation "'RS'" := (R_Scalar eps) (at level 0).
Local Notation "'rotationR'" := (@rotation R (R_Scalar eps) R_Trig)
  (at level 0).

Lemma rotation_is_from (a : R) :
  rotationR a
  = @from R RS (@rotationScaling R (rotationR a)) (@Vector2_zero R RS).
Proof. reflexivity. Qed.

Lemma rotation_block_orthogonal (a : R) :
  @orthogonal R RS (@rotationScaling R (rotationR a)).
Proof.
  unfold orthogonal, Matrix2_mul, Matrix2_mulv, transposed, rotationScaling,
    Matrix2_from, xy, rotation, Matrix3_of, Matrix2_identity.
  simpl. pose proof (sin2_cos2 a) as H. unfold Rsqr in H.
  componentwise; lra.
Qed.

(** X12.  Over the real numbers rotations compose by adding their angles,
    [rotation(0)] is the identity, a turn by [2*pi] changes nothing, and
    [invertedEuclidean()] accepts every rotation and returns the rotation
    by the negated angle. *)
Theorem rotation_compose_invert (a b : R) :
  @Matrix3_mul R RS (rotationR a) (rotationR b) = rotationR (a + b)
  /\ rotationR 0 = @Matrix3_identity R RS
  /\ rotationR (a + 2 * PI) = rotationR a
  /\ @Matrix3_mul R RS (rotationR a) (rotationR (- a))
     = @Matrix3_identity R RS
  /\ @invertedEuclidean R RS (rotationR a) = Returned (rotationR (- a)).
Proof.
  assert (Hmul : forall x y : R,
    @Matrix3_mul R RS (rotationR x) (rotationR y) = rotationR (x + y)).
  { intros x y.
    unfold Matrix3_mul, Matrix3_mulv, rotation, Matrix3_of. simpl.
    rewrite cos_plus, sin_plus. componentwise; ring. }
  assert (Hzero : rotationR 0 = @Matrix3_identity R RS).
  { unfold rotation, Matrix3_identity, Matrix3_identity_of, Matrix3_of.
    simpl. rewrite sin_0, cos_0. componentwise; ring. }
  split; [apply Hmul |]. split; [exact Hzero |]. split; [| split].
  - unfold rotation, Matrix3_of. simpl.
    rewrite sin_plus, cos_plus, sin_2PI, cos_2PI. componentwise; ring.
  - rewrite Hmul. replace (a + - a)%R with 0%R by ring. exact Hzero.
  - rewrite rotation_is_from.
    rewrite (@invertedEuclidean_from R RS (R_ExactScalar eps) _
               (@Vector2_zero R RS) (rotation_block_orthogonal a)).
    f_equal.
    unfold from, from_columns, Vector3_of, Matrix2_mulv, transposed,
      rotationScaling, Matrix2_from, xy, Vector2_opp, Vector2_zero, rotation,
      Matrix3_of.
    simpl. rewrite sin_neg, cos_neg. componentwise; ring.
Qed.

Lemma normalized_scaled_unit (k c s : R) :
  (0 < k)%R -> (c * c + s * s = 1)%R ->
  @normalized R RS R_Sqrt (mkVector2 (c * k) (s * k))%R = mkVector2 c s.
Proof.
  intros Hk Hunit. unfold normalized, length, dot. simpl.
  replace (c * k * (c * k) + s * k * (s * k))%R with (k * k)%R
    by (transitivity ((c * c + s * s) * (k * k))%R;
        [rewrite Hunit; ring | ring]).
  rewrite sqrt_square by lra.
  componentwise; field; lra.
Qed.

(** X13.  Over the real numbers the accessor [rotation() const] removes a
    uniform positive scale: for a rotation followed by a scaling with the
    same factor [k > 0] on both axes, and any translation written into the
    result, it gives the rotation block back; on a rotation matrix itself
    it gives the rotation/scaling block. *)
Theorem rotation_of_scaled_rotation (a k : R) (t : Vector2 R) :
  (0 < k)%R ->
  @rotation_of R RS R_Sqrt
     (assign_translation
        (@Matrix3_mul R RS (rotationR a) (@scaling R RS (mkVector2 k k))) t)
  = @rotationScaling R (rotationR a)
  /\ @rotation_of R RS R_Sqrt (rotationR a)
     = @rotationScaling R (rotationR a).
Proof.
  intros Hk.
  pose proof (sin2_cos2 a) as H. unfold Rsqr in H.
  assert (Hc : (cos a * cos a + sin a * sin a = 1)%R) by lra.
  assert (Hs : (- sin a * - sin a + cos a * cos a = 1)%R) by lra.
  split.
  - unfold rotation_of, assign_translation, Matrix3_mul, Matrix3_mulv,
      rotationScaling, Matrix2_from, xy, rotation, scaling, Matrix3_of.
    simpl.
    replace (cos a * k + - sin a * 0 + 0 * 0)%R with (cos a * k)%R by ring.
    replace (sin a * k + cos a * 0 + 0 * 0)%R with (sin a * k)%R by ring.
    replace (cos a * 0 + - sin a * k + 0 * 0)%R with (- sin a * k)%R by ring.
    replace (sin a * 0 + cos a * k + 0 * 0)%R with (cos a * k)%R by ring.
    rewrite (normalized_scaled_unit Hk Hc), (normalized_scaled_unit Hk Hs).
    reflexivity.
  - unfold rotation_of, rotationScaling, Matrix2_from, xy, rotation,
      Matrix3_of.
    simpl.
    replace (cos a) with (cos a * 1)%R at 1 2 by ring.
    replace (sin a) with (sin a * 1)%R at 1 by ring.
    replace (- sin a)%R with (- sin a * 1)%R at 1 by ring.
    rewrite (normalized_scaled_unit Rlt_0_1 Hc),
      (normalized_scaled_unit Rlt_0_1 Hs).
    reflexivity.
Qed.

(** X14.  Over the real numbers [projection(size)], for a size with nonzero
    components, sends the corners [(size.x/2, size.y/2)] and
    [(-size.x/2, -size.y/2)] of the view to [(1, 1)] and [(-1, -1)] and the
    centre to the centre. *)
Theorem projection_maps_view_corners (sx sy : R) :
  sx <> 0%R -> sy <> 0%R ->
  @mul_point R RS (@projection R RS (mkVector2 sx sy))
     (@Point2D R RS (sx / 2) (sy / 2))
  = @Point2D R RS 1 1
  /\ @mul_point R RS (@projection R RS (mkVector2 sx sy))
       (@Point2D R RS (- sx / 2) (- sy / 2))
     = @Point2D R RS (-1) (-1)
  /\ @mul_point R RS (@projection R RS (mkVector2 sx sy))
       (@Point2D R RS 0 0)
     = @Point2D R RS 0 0.
Proof.
  intros Hx Hy.
  unfold mul_point, Matrix3_mulv, projection, scaling, Vector2_rdiv,
    Matrix3_of, Point2D.
  simpl. repeat split; componentwise; field; assumption.
Qed.

End RealMatrices.

(** ** The further properties at sample inputs *)

Lemma invertedEuclidean_first_failure_witness :
  invertedEuclidean (Matrix3_of 2 0 5 0 2 0 0 0 1)%Z
  = Failed UnexpectedLastRow
  /\ invertedEuclidean (scaling (mkVector2 2%Z 2%Z))
     = Failed NotEuclideanTransformation.
Proof.
  split.
  - apply (proj1 (@invertedEuclidean_first_failure Z Z_Scalar Z_EqScalar
                    (Matrix3_of 2 0 5 0 2 0 0 0 1)%Z)).
    intros H. discriminate H.
  - apply (proj1 (proj2 (@invertedEuclidean_first_failure Z Z_Scalar
                           Z_EqScalar (scaling (mkVector2 2%Z 2%Z))))).
    split; [reflexivity |]. intros H. discriminate H.
Defined.

Lemma invertedEuclidean_orthonormal_axes_witness :
  row2 turn_and_shift = mkVector3 0%Z 0%Z 1%Z
  /\ (returns (invertedEuclidean turn_and_shift)
      <-> dot (right turn_and_shift) = 1%Z /\ dot (up turn_and_shift) = 1%Z
          /\ dot2 (right turn_and_shift) (up turn_and_shift) = 0%Z
          /\ dot2 (up turn_and_shift) (right turn_and_shift) = 0%Z).
Proof.
  split; [reflexivity |].
  exact (@invertedEuclidean_orthonormal_axes Z Z_Scalar Z_EqScalar
           turn_and_shift eq_refl).
Defined.

Lemma invertedEuclidean_two_sided_witness :
  invertedEuclidean turn_and_shift
  = Returned (Matrix3_of 0 (-1) 0 1 0 0 (-4) 3 1)%Z
  /\ Matrix3_mul (Matrix3_of 0 (-1) 0 1 0 0 (-4) 3 1)%Z turn_and_shift
     = Matrix3_identity
  /\ invertedEuclidean (Matrix3_of 0 (-1) 0 1 0 0 (-4) 3 1)%Z
     = Returned turn_and_shift.
Proof.
  split; [reflexivity |].
  destruct (@invertedEuclidean_two_sided Z Z_Scalar Z_ExactScalar
              turn_and_shift (Matrix3_of 0 (-1) 0 1 0 0 (-4) 3 1)%Z eq_refl)
    as [Hleft [_ [_ [_ Hback]]]].
  split; [exact Hleft | exact Hback].
Defined.

Lemma invertedEuclidean_product_witness :
  invertedEuclidean turn_and_shift
  = Returned (Matrix3_of 0 (-1) 0 1 0 0 (-4) 3 1)%Z
  /\ invertedEuclidean (translation (mkVector2 1%Z 2%Z))
     = Returned (translation (mkVector2 (-1)%Z (-2)%Z))
  /\ invertedEuclidean
       (Matrix3_mul turn_and_shift (translation (mkVector2 1%Z 2%Z)))
     = Returned (Matrix3_mul (translation (mkVector2 (-1)%Z (-2)%Z))
                             (Matrix3_of 0 (-1) 0 1 0 0 (-4) 3 1)%Z).
Proof.
  split; [reflexivity |]. split; [reflexivity |].
  exact (@invertedEuclidean_product Z Z_Scalar Z_ExactScalar
           turn_and_shift (translation (mkVector2 1%Z 2%Z))
           (Matrix3_of 0 (-1) 0 1 0 0 (-4) 3 1)%Z
           (translation (mkVector2 (-1)%Z (-2)%Z)) eq_refl eq_refl).
Defined.

Lemma translation_compose_invert_witness :
  Matrix3_mul (translation (mkVector2 1%Z 2%Z))
              (translation (mkVector2 3%Z 4%Z))
  = translation (mkVector2 4%Z 6%Z)
  /\ invertedEuclidean (translation (mkVector2 3%Z 4%Z))
     = Returned (translation (mkVector2 (-3)%Z (-4)%Z)).
Proof.
  destruct (@translation_compose_invert Z Z_Scalar Z_ExactScalar
              (mkVector2 1%Z 2%Z) (mkVector2 3%Z 4%Z))
    as [Hmul [_ Hinv]].
  split; [exact Hmul | exact Hinv].
Defined.

Lemma scaling_compose_invert_witness :
  ((-1) * (-1) = 1 /\ 1 * 1 = 1)%Z
  /\ invertedEuclidean (scaling (mkVector2 (-1)%Z 1%Z))
     = Returned (scaling (mkVector2 (-1)%Z 1%Z))
  /\ invertedEuclidean (scaling (mkVector2 2%Z 1%Z))
     = Failed NotEuclideanTransformation.
Proof.
  split; [split; reflexivity |]. split.
  - apply (proj1 (proj2 (@scaling_compose_invert Z Z_Scalar Z_ExactScalar
                           (mkVector2 1%Z 1%Z) (mkVector2 (-1)%Z 1%Z)))).
    split; reflexivity.
  - apply (proj2 (proj2 (@scaling_compose_invert Z Z_Scalar Z_ExactScalar
                           (mkVector2 1%Z 1%Z) (mkVector2 2%Z 1%Z)))).
    left. intros H. discriminate H.
Defined.

Lemma reflection_negated_normal_and_inverse_witness :
  dot y_axis = 1%Z
  /\ reflection (Vector2_opp y_axis) = reflection y_axis
  /\ exists m : Matrix3 Z,
       reflection y_axis = Returned m /\ invertedEuclidean m = Returned m.
Proof.
  split; [reflexivity |].
  destruct (@reflection_negated_normal_and_inverse Z Z_Scalar Z_ExactScalar
              y_axis) as [Hneg Hinv].
  split; [exact Hneg | exact (Hinv eq_refl)].
Defined.

Lemma mul_point_affine_witness :
  mul_point turn_and_shift (Point2D 1%Z 0%Z) = mkVector3 3%Z 5%Z 1%Z
  /\ mul_point (translation (mkVector2 3%Z 4%Z)) (Point2D 1%Z 0%Z)
     = Point2D 4%Z 4%Z.
Proof.
  destruct (@mul_point_affine Z Z_Scalar Z_ExactScalar quarter_turn
              (mkVector2 3%Z 4%Z) (mkVector2 3%Z 4%Z) 1%Z 0%Z)
    as [Hfrom [Htr _]].
  split; [exact Hfrom | exact Htr].
Defined.

Lemma identity_constructor_witness :
  2%Z <> 1%Z
  /\ invertedEuclidean (Matrix3_identity_of 2%Z) = Failed UnexpectedLastRow
  /\ Matrix3_mul Matrix3_identity turn_and_shift = turn_and_shift.
Proof.
  assert (Hne : 2%Z <> 1%Z) by (intros H; discriminate H).
  split; [exact Hne |].
  destruct (@identity_constructor Z Z_Scalar Z_ExactScalar turn_and_shift 2%Z)
    as [Hl [_ [_ [_ [Hbad _]]]]].
  split; [exact (Hbad Hne) | exact Hl].
Defined.

Lemma rotation_of_scaled_rotation_witness :
  (0 < 2)%R
  /\ @rotation_of R (R_Scalar unit_tolerance) R_Sqrt
       (assign_translation
          (@Matrix3_mul R (R_Scalar unit_tolerance)
             (@rotation R (R_Scalar unit_tolerance) R_Trig (PI / 2)%R)
             (@scaling R (R_Scalar unit_tolerance) (mkVector2 2%R 2%R)))
          (mkVector2 3%R 4%R))
     = @rotationScaling R
         (@rotation R (R_Scalar unit_tolerance) R_Trig (PI / 2)%R).
Proof.
  split; [exact Rlt_0_2 |].
  exact (proj1 (@rotation_of_scaled_rotation unit_tolerance (PI / 2)%R 2%R
                  (mkVector2 3%R 4%R) Rlt_0_2)).
Defined.

Lemma projection_maps_view_corners_witness :
  (2 <> 0)%R /\ (4 <> 0)%R
  /\ @mul_point R (R_Scalar unit_tolerance)
       (@projection R (R_Scalar unit_tolerance) (mkVector2 2%R 4%R))
       (@Point2D R (R_Scalar unit_tolerance) (2 / 2)%R (4 / 2)%R)
     = @Point2D R (R_Scalar unit_tolerance) 1%R 1%R.
Proof.
  assert (H2 : (2 <> 0)%R) by lra.
  assert (H4 : (4 <> 0)%R) by lra.
  split; [exact H2 |]. split; [exact H4 |].
  exact (proj1 (@projection_maps_view_corners unit_tolerance 2%R 4%R H2 H4)).
Defined.

(** ** Where the fuzzy comparison rejects the result *)

Lemma R_equals_true (eps : posreal) (a b : R) :
  (Rabs (a - b) < eps)%R -> R_equals eps a b = true.
Proof.
  intros H. unfold R_equals.
  destruct (Rlt_dec (Rabs (a - b)) eps) as [l | n];
    [reflexivity | contradiction].
Qed.

Lemma R_equals_false (eps : posreal) (a b : R) :
  (eps <= Rabs (a - b))%R -> R_equals eps a b = false.
Proof.
  intros H. unfold R_equals.
  destruct (Rlt_dec (Rabs (a - b)) eps) as [l | n]; [| reflexivity].
  exfalso. apply (Rlt_irrefl eps). apply (Rle_lt_trans _ _ _ H l).
Qed.

Lemma Vector3_equals_first (T : Type) (S : Scalar T) (u v : Vector3 T) :
  equals (x3 u) (x3 v) = false -> Vector3_equals u v = false.
Proof. intros H. unfold Vector3_equals. rewrite H. reflexivity. Qed.

Lemma Matrix3_equals_first (T : Type) (S : Scalar T) (a b : Matrix3 T) :
  equals (x3 (col0 a)) (x3 (col0 b)) = false -> Matrix3_equals a b = false.
Proof.
  intros H. unfold Matrix3_equals.
  rewrite (Vector3_equals_first _ _ _ H). reflexivity.
Qed.

(** C2, as stated, fails for [double].  The block [rigid_block] passes the
    orthogonality check of [invertedEuclidean()] exactly, the call on
    [M = from(rigid_block, far_translation)] returns, and the product of
    [M] with the returned matrix has translation [(0.5, -1)] instead of
    [(0, 0)]: the comparison with the identity within [1e-5] is false.
    The second inversion returns too, with a matrix that the comparison
    tells apart from [M]. *)
Lemma invertedEuclidean_inverse_binary64_counterexample :
  @orthogonal float (F_Scalar coarse_tolerance) rigid_block
  /\ exists Minv M2 : Matrix3 float,
       @invertedEuclidean float (F_Scalar coarse_tolerance)
          far_transformation = Returned Minv
       /\ col2 (@Matrix3_mul float (F_Scalar coarse_tolerance)
                  far_transformation Minv)
          = mkVector3 0.5%float (-1)%float 1%float
       /\ @Matrix3_equals float (F_Scalar coarse_tolerance)
            (@Matrix3_mul float (F_Scalar coarse_tolerance)
               far_transformation Minv)
            (@Matrix3_identity float (F_Scalar coarse_tolerance)) = false
       /\ @invertedEuclidean float (F_Scalar coarse_tolerance) Minv
          = Returned M2
       /\ @Matrix3_equals float (F_Scalar coarse_tolerance)
            M2 far_transformation = false.
Proof.
  split; [vm_compute; reflexivity |].
  exists (@from float (F_Scalar coarse_tolerance) (transposed rigid_block)
            (@Matrix2_mulv float (F_Scalar coarse_tolerance)
               (transposed rigid_block)
               (@Vector2_opp float (F_Scalar coarse_tolerance)
                  far_translation))).
  exists (@from float (F_Scalar coarse_tolerance) rigid_block
            (mkVector2 1234567890123456.5%float 6543219876543212%float)).
  repeat split; vm_compute; reflexivity.
Qed.

(** C5, as stated, fails for a normal that is unit only within the
    tolerance.  Over the real numbers with tolerance [1e-5], the normal
    [(1.0000025, 0)] passes the check of [reflection], and neither is the
    square of the returned matrix equal to the identity within the
    tolerance, nor is the image of the point [n] equal to [-n] within
    it. *)
Lemma reflection_near_unit_counterexample :
  @equals R (R_Scalar small_tolerance)
     (@dot R (R_Scalar small_tolerance) near_unit_normal) 1%R = true
  /\ exists m : Matrix3 R,
       @reflection R (R_Scalar small_tolerance) near_unit_normal = Returned m
       /\ @Matrix3_equals R (R_Scalar small_tolerance)
            (@Matrix3_mul R (R_Scalar small_tolerance) m m)
            (@Matrix3_identity R (R_Scalar small_tolerance)) = false
       /\ @Vector3_equals R (R_Scalar small_tolerance)
            (@Matrix3_mulv R (R_Scalar small_tolerance) m
               (@Point2D R (R_Scalar small_tolerance)
                  (x2 near_unit_normal) (y2 near_unit_normal)))
            (@Point2D R (R_Scalar small_tolerance)
               (- x2 near_unit_normal)%R (- y2 near_unit_normal)%R) = false.
Proof.
  assert (Hcheck :
    @equals R (R_Scalar small_tolerance)
       (@dot R (R_Scalar small_tolerance) near_unit_normal) 1%R = true).
  { apply R_equals_true.
    unfold dot, near_unit_normal, small_tolerance.
    cbn [x2 y2 add mul R_Scalar pos].
    unfold Rabs. destruct (Rcase_abs _); lra. }
  split; [exact Hcheck |].
  eexists. split; [apply reflection_returned; exact Hcheck |]. split.
  - apply Matrix3_equals_first. apply R_equals_false.
    unfold Matrix3_mul, Matrix3_mulv, Matrix3_identity, Matrix3_identity_of,
      Matrix3_of, from, from_columns, Vector3_of, Matrix2_sub, Vector2_sub,
      outer, Vector2_scale, Matrix2_identity, Vector2_zero,
      near_unit_normal, small_tolerance.
    cbn [x3 y3 z3 col0 col1 col2 x2 y2 m2col0 m2col1 add sub mul zero one two
         R_Scalar pos].
    unfold Rabs. destruct (Rcase_abs _); lra.
  - apply Vector3_equals_first. apply R_equals_false.
    unfold Matrix3_mulv, Point2D, from, from_columns, Vector3_of,
      Matrix2_sub, Vector2_sub, outer, Vector2_scale, Matrix2_identity,
      Vector2_zero, near_unit_normal, small_tolerance.
    cbn [x3 y3 z3 col0 col1 col2 x2 y2 m2col0 m2col1 add sub mul zero one two
         R_Scalar pos].
    unfold Rabs. destruct (Rcase_abs _); lra.
Qed.

(** The same happens at every tolerance: the normal
    [(sqrt(1 + eps/2), 0)] passes the check of [reflection] and the square
    of the returned matrix is not equal to the identity within [eps]. *)
Lemma reflection_square_outside_tolerance (eps : posreal) :
  @equals R (R_Scalar eps)
     (@dot R (R_Scalar eps) (mkVector2 (sqrt (1 + eps / 2)) 0%R)) 1%R = true
  /\ exists m : Matrix3 R,
       @reflection R (R_Scalar eps) (mkVector2 (sqrt (1 + eps / 2)) 0%R)
       = Returned m
       /\ @Matrix3_equals R (R_Scalar eps)
            (@Matrix3_mul R (R_Scalar eps) m m)
            (@Matrix3_identity R (R_Scalar eps)) = false.
Proof.
  pose proof (cond_pos eps) as Hpos.
  assert (Hs : (sqrt (1 + eps / 2) * sqrt (1 + eps / 2) = 1 + eps / 2)%R)
    by (apply sqrt_sqrt; lra).
  set (s := sqrt (1 + eps / 2)) in *.
  assert (Hcheck :
    @equals R (R_Scalar eps)
       (@dot R (R_Scalar eps) (mkVector2 s 0%R)) 1%R = true).
  { apply R_equals_true. unfold dot. cbn [x2 y2 add mul R_Scalar].
    replace (s * s + 0 * 0 - 1)%R with (eps / 2)%R by (rewrite Hs; field).
    rewrite Rabs_right; lra. }
  split; [exact Hcheck |].
  eexists. split; [apply reflection_returned; exact Hcheck |].
  apply Matrix3_equals_first. apply R_equals_false.
  unfold Matrix3_mul, Matrix3_mulv, Matrix3_identity, Matrix3_identity_of,
    Matrix3_of, from, from_columns, Vector3_of, Matrix2_sub, Vector2_sub,
    outer, Vector2_scale, Matrix2_identity, Vector2_zero.
  cbn [x3 y3 z3 col0 col1 col2 x2 y2 m2col0 m2col1 add sub mul zero one two
       R_Scalar].
  match goal with
  | |- (_ <= Rabs (?e - 1))%R =>
      replace e with ((1 + eps) * (1 + eps))%R
  end.
  - rewrite Rabs_right; nra.
  - transitivity ((1 - 2 * (s * s)) * (1 - 2 * (s * s)))%R.
    + rewrite Hs. field.
    + ring.
Qed.
